(** * logcatcolor: the line renderer of [logcatcolor.go], embedded and verified

    The development follows the Go source top-down.  Go values are modelled
    as the program has them: a [string] is a sequence of bytes ([list ascii]),
    an [int] is a [Z], a slice expression or a [make] that Go would abort on
    returns [Panic], the level-to-colour table is a finite map, and the
    pieces of the standard library the renderer calls (string ranging,
    [strings.Fields], [strings.TrimSpace], [time.Parse] for the one layout
    used, [time.Duration] formatting, the padded [%-*v] verb) are written out
    so that every definition evaluates on concrete lines. *)

From Stdlib Require Import ZArith Lia Ascii String Sorting.Sorted.
From Stdlib Require Import Floats.PrimFloat Numbers.Cyclic.Int63.PrimInt63.
From stdpp Require Import base option list sorting gmap strings.

Local Open Scope Z_scope.

(** ** Go strings, ints and run-time panics *)

(** A Go string: an immutable sequence of bytes. *)
Abbreviation str := (list ascii).

(** A string literal of the source. *)
Definition lit (s : string) : str := list_ascii_of_string s.
Arguments lit s%_string.

(** The line feed and the tab. *)
Definition newline : str := ["010"%char].
Definition tab : ascii := "009"%char.

(** The numeric value of a byte, [0 <= byteZ c < 256]. *)
Definition byteZ (c : ascii) : Z := Z.of_N (N_of_ascii c).

(** Go's [len]. *)
Definition len {A} (l : list A) : Z := Z.of_nat (length l).

(** The run-time panics the code can raise. *)
Inductive panic : Type :=
  | SliceBoundsOutOfRange
  | IndexOutOfRange
  | MakesliceCapOutOfRange.

(** The outcome of running a Go function: a value, or a panic that unwinds
    the whole program (nothing in the source recovers). *)
Inductive result (A : Type) : Type :=
  | Ok (a : A)
  | Panic (p : panic).
Arguments Ok {A} a.
Arguments Panic {A} p.

(** Sequencing: a panic skips the rest ([x ← r; k] below). *)
#[export] Instance result_ret : MRet result := fun A a => Ok a.
#[export] Instance result_bind : MBind result := fun A B k r =>
  match r with
  | Ok a => k a
  | Panic p => Panic p
  end.

(** [s[lo:hi]] when the bounds are in range. *)
Definition substr (s : str) (lo hi : Z) : str :=
  take (Z.to_nat (hi - lo)) (drop (Z.to_nat lo) s).

(** [s[lo:hi]]: panics unless [0 <= lo <= hi <= len(s)]. *)
Definition slice (s : str) (lo hi : Z) : result str :=
  if (0 <=? lo) && (lo <=? hi) && (hi <=? len s)
  then Ok (substr s lo hi)
  else Panic SliceBoundsOutOfRange.

(** [s[lo:]] and [s[:hi]]. *)
Definition slice_from (s : str) (lo : Z) : result str := slice s lo (len s).
Definition slice_to (s : str) (hi : Z) : result str := slice s 0 hi.

(** [l[i]] on a slice of ints. *)
Definition index (l : list Z) (i : Z) : result Z :=
  if (0 <=? i) && (i <? len l)
  then match l !! Z.to_nat i with Some x => Ok x | None => Panic IndexOutOfRange end
  else Panic IndexOutOfRange.

(** The byte at offset [i], when there is one. *)
Definition byte_at (s : str) (i : Z) : option ascii :=
  if i <? 0 then None else s !! Z.to_nat i.

(** ** Ranging over a string

    [for i, char := range line] walks the string rune by rune: a byte below
    [0x80] is its own rune; otherwise the run time's [decoderune] decodes a
    UTF-8 sequence of 2 to 4 bytes, and an ill-formed sequence yields
    [U+FFFD] and advances by one byte. *)

Module utf8.

Definition runeError : Z := 65533.
Definition runeSelf : Z := 128.
Definition maxRune : Z := 1114111.
Definition surrogateMin : Z := 55296.
Definition surrogateMax : Z := 57343.

Definition t2 : Z := 192.
Definition t3 : Z := 224.
Definition t4 : Z := 240.
Definition t5 : Z := 248.
Definition maskx : Z := 63.
Definition mask2 : Z := 31.
Definition mask3 : Z := 15.
Definition mask4 : Z := 7.
Definition rune1Max : Z := 127.
Definition rune2Max : Z := 2047.
Definition rune3Max : Z := 65535.
Definition locb : Z := 128.
Definition hicb : Z := 191.

(** [locb <= b && b <= hicb]: a continuation byte. *)
Definition cont (c : ascii) : bool := (locb <=? byteZ c) && (byteZ c <=? hicb).

(** [decoderune] on the string from the current offset on: the rune and the
    number of bytes it takes. *)
Definition decoderune (s : str) : Z * nat :=
  match s with
  | [] => (runeError, 1%nat)
  | c0 :: rest =>
    let b0 := byteZ c0 in
    if (t2 <=? b0) && (b0 <? t3) then
      match rest with
      | c1 :: _ =>
        if cont c1 then
          let r := Z.lor (Z.shiftl (Z.land b0 mask2) 6) (Z.land (byteZ c1) maskx) in
          if rune1Max <? r then (r, 2%nat) else (runeError, 1%nat)
        else (runeError, 1%nat)
      | _ => (runeError, 1%nat)
      end
    else if (t3 <=? b0) && (b0 <? t4) then
      match rest with
      | c1 :: c2 :: _ =>
        if cont c1 && cont c2 then
          let r := Z.lor (Z.lor (Z.shiftl (Z.land b0 mask3) 12)
                                (Z.shiftl (Z.land (byteZ c1) maskx) 6))
                         (Z.land (byteZ c2) maskx) in
          if (rune2Max <? r) && negb ((surrogateMin <=? r) && (r <=? surrogateMax))
          then (r, 3%nat) else (runeError, 1%nat)
        else (runeError, 1%nat)
      | _ => (runeError, 1%nat)
      end
    else if (t4 <=? b0) && (b0 <? t5) then
      match rest with
      | c1 :: c2 :: c3 :: _ =>
        if cont c1 && cont c2 && cont c3 then
          let r := Z.lor (Z.lor (Z.lor (Z.shiftl (Z.land b0 mask4) 18)
                                       (Z.shiftl (Z.land (byteZ c1) maskx) 12))
                                (Z.shiftl (Z.land (byteZ c2) maskx) 6))
                         (Z.land (byteZ c3) maskx) in
          if (rune3Max <? r) && (r <=? maxRune) then (r, 4%nat) else (runeError, 1%nat)
        else (runeError, 1%nat)
      | _ => (runeError, 1%nat)
      end
    else (runeError, 1%nat)
  end.

(** One step of a [range] loop at the head of [s]; it is also what
    [utf8.DecodeRuneInString] returns on a string that is not empty. *)
Definition decode (s : str) : Z * nat :=
  match s with
  | [] => (runeError, 1%nat)
  | c :: _ => if byteZ c <? runeSelf then (byteZ c, 1%nat) else decoderune s
  end.

(** The iterations of [for i, r := range s], as the pairs [(i, r)]: [skip]
    counts the bytes of the current rune still to be stepped over. *)
Fixpoint range_go (i : Z) (skip : nat) (s : str) : list (Z * Z) :=
  match s with
  | [] => []
  | _ :: rest =>
    match skip with
    | S k => range_go (i + 1) k rest
    | O => let '(r, w) := decode s in (i, r) :: range_go (i + 1) (Nat.pred w) rest
    end
  end.

Definition range (s : str) : list (Z * Z) := range_go 0 0 s.

End utf8.

(** ** [findFieldIndices] *)

(** The rune [' ']. *)
Definition space : Z := 32.

(** The body of the [for ... range line] loop of [findFieldIndices], run
    over the remaining iterations; [break] returns at once. *)
Fixpoint findFieldIndices_loop (maxFields : Z) (indices : list Z) (inField : bool)
    (iters : list (Z * Z)) : list Z :=
  match iters with
  | [] => indices
  | (i, char) :: rest =>
    if negb (char =? space) && negb inField then
      let indices := indices ++ [i] in
      if len indices >=? maxFields then indices
      else findFieldIndices_loop maxFields indices true rest
    else if char =? space then findFieldIndices_loop maxFields indices false rest
    else findFieldIndices_loop maxFields indices inField rest
  end.

(** [findFieldIndices(line, maxFields)]; [make([]int, 0, maxFields)] panics
    on a negative capacity. *)
Definition findFieldIndices (line : str) (maxFields : Z) : result (list Z) :=
  if maxFields <? 0 then Panic MakesliceCapOutOfRange
  else Ok (findFieldIndices_loop maxFields [] false (utf8.range line)).

(** ** The [strings] and [unicode] functions the renderer calls *)

(** [unicode.IsSpace]: the Latin-1 cases of its [switch], then the
    [White_Space] range table. *)
Definition unicode_IsSpace (r : Z) : bool :=
  if r <=? 255 then
    (r =? 9) || (r =? 10) || (r =? 11) || (r =? 12) || (r =? 13) || (r =? 32)
    || (r =? 133) || (r =? 160)
  else
    (r =? 5760) || ((8192 <=? r) && (r <=? 8202)) || (r =? 8232) || (r =? 8233)
    || (r =? 8239) || (r =? 8287) || (r =? 12288).

(** The table [asciiSpace] of package [strings]. *)
Definition asciiSpace (c : ascii) : bool :=
  let b := byteZ c in
  (b =? 9) || (b =? 10) || (b =? 11) || (b =? 12) || (b =? 13) || (b =? 32).

(** The loop of [strings.FieldsFunc]: [start] is the start of the field
    being read, or negative between fields; finished fields are recorded as
    spans [(start, end)]. *)
Fixpoint FieldsFunc_loop (f : Z -> bool) (spans : list (Z * Z)) (start : Z)
    (iters : list (Z * Z)) : list (Z * Z) * Z :=
  match iters with
  | [] => (spans, start)
  | (end_, rune) :: rest =>
    if f rune then
      if start >=? 0
      then FieldsFunc_loop f (spans ++ [(start, end_)]) (Z.lnot start) rest
      else FieldsFunc_loop f spans start rest
    else
      if start <? 0
      then FieldsFunc_loop f spans end_ rest
      else FieldsFunc_loop f spans start rest
  end.

Definition strings_FieldsFunc (s : str) (f : Z -> bool) : list str :=
  let '(spans, start) := FieldsFunc_loop f [] (-1) (utf8.range s) in
  let spans := if start >=? 0 then spans ++ [(start, len s)] else spans in
  map (fun sp => substr s (fst sp) (snd sp)) spans.

(** [strings.Fields]: its ASCII fast path splits around the bytes of
    [asciiSpace], which is what [FieldsFunc] with [unicode.IsSpace] does on
    a string of ASCII bytes; any other string goes to [FieldsFunc]. *)
Definition strings_Fields (s : str) : list str :=
  strings_FieldsFunc s unicode_IsSpace.

(** [strings.IndexByte]: the offset of the first byte [c], or [-1]. *)
Fixpoint IndexByte_from (i : Z) (s : str) (c : ascii) : Z :=
  match s with
  | [] => -1
  | b :: rest => if Ascii.eqb b c then i else IndexByte_from (i + 1) rest c
  end.

Definition strings_IndexByte (s : str) (c : ascii) : Z := IndexByte_from 0 s c.

(** [strings.IndexRune(s, r)] for a rune below [utf8.RuneSelf], the only
    case the renderer uses: it is [IndexByte]. *)
Definition strings_IndexRune (s : str) (r : ascii) : Z := strings_IndexByte s r.

(** [utf8.RuneStart]. *)
Definition RuneStart (c : ascii) : bool := negb (Z.land (byteZ c) 192 =? 128).

(** The backwards scan of [utf8.DecodeLastRuneInString] for the start of the
    last rune: at most [UTFMax - 1] bytes are inspected. *)
Fixpoint lastRuneStart (fuel : nat) (s : str) (start lim : Z) : Z :=
  match fuel with
  | O => start
  | S fuel' =>
    if start >=? lim then
      match byte_at s start with
      | Some c => if RuneStart c then start else lastRuneStart fuel' s (start - 1) lim
      | None => start
      end
    else start
  end.

(** [utf8.DecodeLastRuneInString]. *)
Definition DecodeLastRuneInString (s : str) : Z * Z :=
  let end_ := len s in
  if end_ =? 0 then (utf8.runeError, 0)
  else
    match byte_at s (end_ - 1) with
    | None => (utf8.runeError, 0)
    | Some c =>
      if byteZ c <? utf8.runeSelf then (byteZ c, 1)
      else
        let lim := Z.max 0 (end_ - 4) in
        let start := lastRuneStart 4 s (end_ - 2) lim in
        let start := if start <? 0 then 0 else start in
        let '(r, size) := utf8.decode (substr s start end_) in
        if negb (start + Z.of_nat size =? end_) then (utf8.runeError, 1)
        else (r, Z.of_nat size)
    end.

(** [indexFunc(s, f, false)]: the offset of the first rune that [f]
    rejects, or [-1]. *)
Fixpoint indexFunc_loop (f : Z -> bool) (iters : list (Z * Z)) : Z :=
  match iters with
  | [] => -1
  | (i, r) :: rest => if negb (f r) then i else indexFunc_loop f rest
  end.

(** [lastIndexFunc(s, f, false)]: the loop steps back one rune at a time,
    so [len(s)] rounds are enough. *)
Fixpoint lastIndexFunc_loop (fuel : nat) (f : Z -> bool) (s : str) (i : Z) : Z :=
  match fuel with
  | O => -1
  | S fuel' =>
    if i >? 0 then
      let '(r, size) := DecodeLastRuneInString (substr s 0 i) in
      let i := i - size in
      if negb (f r) then i else lastIndexFunc_loop fuel' f s i
    else -1
  end.

Definition strings_TrimLeftFunc (s : str) (f : Z -> bool) : str :=
  let i := indexFunc_loop f (utf8.range s) in
  if i =? -1 then [] else substr s i (len s).

Definition strings_TrimRightFunc (s : str) (f : Z -> bool) : str :=
  let i := lastIndexFunc_loop (length s) f s (len s) in
  let i :=
    match byte_at s i with
    | Some c =>
      if (i >=? 0) && (byteZ c >=? utf8.runeSelf)
      then i + Z.of_nat (snd (utf8.decode (substr s i (len s))))
      else i + 1
    | None => i + 1
    end in
  substr s 0 i.

Definition strings_TrimFunc (s : str) (f : Z -> bool) : str :=
  strings_TrimRightFunc (strings_TrimLeftFunc s f) f.

(** The first loop of [strings.TrimSpace]: skip ASCII space from the left;
    [inl start] when an ASCII non-space byte or the end is reached, [inr
    start] when a byte at or above [utf8.RuneSelf] is met. *)
Fixpoint TrimSpace_left (start : Z) (s : str) : Z + Z :=
  match s with
  | [] => inl start
  | c :: rest =>
    if byteZ c >=? utf8.runeSelf then inr start
    else if negb (asciiSpace c) then inl start
    else TrimSpace_left (start + 1) rest
  end.

(** The second loop, over the reversed bytes of [s[start:]], from [stop]
    down to [start]. *)
Fixpoint TrimSpace_right (stop : Z) (rev_s : str) : Z + Z :=
  match rev_s with
  | [] => inl stop
  | c :: rest =>
    if byteZ c >=? utf8.runeSelf then inr stop
    else if negb (asciiSpace c) then inl stop
    else TrimSpace_right (stop - 1) rest
  end.

(** [strings.TrimSpace]. *)
Definition strings_TrimSpace (s : str) : str :=
  match TrimSpace_left 0 s with
  | inr start => strings_TrimFunc (substr s start (len s)) unicode_IsSpace
  | inl start =>
    match TrimSpace_right (len s) (rev (substr s start (len s))) with
    | inr stop => strings_TrimRightFunc (substr s start stop) unicode_IsSpace
    | inl stop => substr s start stop
    end
  end.

(** [utf8.RuneCountInString]: one per rune, an ill-formed byte counting as
    one rune. *)
Definition RuneCountInString (s : str) : Z := len (utf8.range s).

(** ** Package [time]: instants, durations and the one layout parsed *)

(** A [time.Time] without monotonic clock reading, in UTC (the zero [Time]
    and every result of [time.Parse] here are such): the seconds elapsed
    since January 1 of year 1, 00:00:00 UTC, and the nanoseconds within the
    second. *)
Record Time : Type := mkTime { sec : Z; nsec : Z }.

(** [time.Time{}]. *)
Definition zeroTime : Time := mkTime 0 0.

(** A [time.Duration]: an [int64] count of nanoseconds. *)
Definition Duration : Type := Z.

Definition Nanosecond : Duration := 1.
Definition Microsecond : Duration := 1000 * Nanosecond.
Definition Millisecond : Duration := 1000 * Microsecond.
Definition Second : Duration := 1000 * Millisecond.
Definition minDuration : Duration := - 2 ^ 63.
Definition maxDuration : Duration := 2 ^ 63 - 1.

(** Two's-complement wrap-around of [int64] arithmetic. *)
Definition wrap64 (z : Z) : Z := (z + 2 ^ 63) mod 2 ^ 64 - 2 ^ 63.

(** [isDigit(s, i)]. *)
Definition isDigit (s : str) (i : nat) : bool :=
  match s !! i with
  | Some c => (48 <=? byteZ c) && (byteZ c <=? 57)
  | None => false
  end.

(** [int(s[i] - '0')] for a digit. *)
Definition digitAt (s : str) (i : nat) : Z :=
  match s !! i with
  | Some c => byteZ c - 48
  | None => 0
  end.

(** [getnum]: one or two digits; exactly two when [fixed]. *)
Definition getnum (s : str) (fixed : bool) : option (Z * str) :=
  if negb (isDigit s 0) then None
  else if negb (isDigit s 1) then
    if fixed then None else Some (digitAt s 0, drop 1 s)
  else Some (digitAt s 0 * 10 + digitAt s 1, drop 2 s).

(** [cutspace]: drop the leading spaces. *)
Fixpoint cutspace (s : str) : str :=
  match s with
  | c :: rest => if Ascii.eqb c " " then cutspace rest else s
  | [] => []
  end.

(** [skip(value, prefix)]: [value] must start with the literal text
    [prefix], a run of spaces in [prefix] standing for any run of spaces.
    Every round shortens [prefix] or ends, so [len(prefix)] rounds suffice. *)
Fixpoint skip_loop (fuel : nat) (value prefix : str) : option str :=
  match prefix with
  | [] => Some value
  | p :: prefix' =>
    match fuel with
    | O => None
    | S fuel' =>
      if Ascii.eqb p " " then
        match value with
        | v :: _ =>
          if negb (Ascii.eqb v " ") then None
          else skip_loop fuel' (cutspace value) (cutspace prefix)
        | [] => skip_loop fuel' (cutspace value) (cutspace prefix)
        end
      else
        match value with
        | v :: value' =>
          if negb (Ascii.eqb v p) then None else skip_loop fuel' value' prefix'
        | [] => None
        end
    end
  end.

Definition skip (value prefix : str) : option str :=
  skip_loop (length prefix) value prefix.

(** [leadingInt]: the leading decimal digits of [s] and the rest; [None] on
    overflow of [1<<63]. *)
Fixpoint leadingInt_loop (x : Z) (s : str) : option (Z * str) :=
  match s with
  | [] => Some (x, [])
  | c :: rest =>
    if (byteZ c <? 48) || (byteZ c >? 57) then Some (x, s)
    else if x >? 2 ^ 63 / 10 then None
    else
      let x := x * 10 + byteZ c - 48 in
      if x >? 2 ^ 63 then None else leadingInt_loop x rest
  end.

(** [atoi] of package [time]: an optional sign, then digits only. *)
Definition atoi (s : str) : option Z :=
  let '(neg, s) :=
    match s with
    | c :: rest =>
      if Ascii.eqb c "-" then (true, rest)
      else if Ascii.eqb c "+" then (false, rest)
      else (false, s)
    | [] => (false, s)
    end in
  match leadingInt_loop 0 s with
  | Some (q, []) => Some (if neg then wrap64 (- wrap64 q) else wrap64 q)
  | _ => None
  end.

(** [commaOrPeriod]. *)
Definition commaOrPeriod (c : ascii) : bool := Ascii.eqb c "." || Ascii.eqb c ",".

(** [parseNanoseconds(value, nbytes)] for [nbytes <= 10]: a separator and
    [nbytes - 1] characters read by [atoi], scaled to nanoseconds. *)
Definition parseNanoseconds (value : str) (nbytes : Z) : option Z :=
  match value with
  | c :: _ =>
    if negb (commaOrPeriod c) then None
    else
      match atoi (substr value 1 nbytes) with
      | Some ns => if ns <? 0 then None else Some (ns * 10 ^ (10 - nbytes))
      | None => None
      end
  | [] => None
  end.

(** The table [daysBefore]: days before the start of month [m + 1] in a
    non-leap year. *)
Definition daysBefore (m : Z) : Z :=
  nth (Z.to_nat m) [0; 31; 59; 90; 120; 151; 181; 212; 243; 273; 304; 334; 365] 0.

(** [isLeap]. *)
Definition isLeap (year : Z) : bool :=
  (year mod 4 =? 0) && (negb (year mod 100 =? 0) || (year mod 400 =? 0)).

(** [daysIn]. *)
Definition daysIn (m year : Z) : Z :=
  if (m =? 2) && isLeap year then 29 else daysBefore m - daysBefore (m - 1).

(** [time.Date(0, month, day, hour, min, sec, nsec, time.UTC)] for fields
    already in range: year 0 is a leap year that starts 366 days before the
    zero [Time]. *)
Definition Date0 (month day hour min sec_ nsec_ : Z) : Time :=
  let yday := daysBefore (month - 1) + (if (3 <=? month) && isLeap 0 then 1 else 0)
              + (day - 1) in
  mkTime ((yday - 366) * 86400 + hour * 3600 + min * 60 + sec_) nsec_.

(** [time.Parse("01-02 15:04:05.000", value)]: the layout is the chunks
    [01] (two-digit month), [-], [02] (two-digit day), a space, [15] (hour,
    one or two digits), [:], [04], [:], [05], and [.000] (a separator and
    exactly three characters of fraction); nothing may follow, the day must
    exist in the month of year 0, and the result is in UTC.  [None] stands
    for any of its errors. *)
Definition time_Parse (value : str) : option Time :=
  '(month, value) ← getnum value true;
  if (month <=? 0) || (12 <? month) then None else
  value ← skip value (lit "-");
  '(day, value) ← getnum value true;
  value ← skip value (lit " ");
  '(hour, value) ← getnum value false;
  if (hour <? 0) || (24 <=? hour) then None else
  value ← skip value (lit ":");
  '(min, value) ← getnum value true;
  if (min <? 0) || (60 <=? min) then None else
  value ← skip value (lit ":");
  '(sec_, value) ← getnum value true;
  if (sec_ <? 0) || (60 <=? sec_) then None else
  if len value <? 4 then None else
  nsec_ ← parseNanoseconds value 4;
  let value := drop 4 value in
  if negb (len value =? 0) then None else
  if (day <? 1) || (daysIn month 0 <? day) then None else
  Some (Date0 month day hour min sec_ nsec_).

(** [Time.Add] on times without monotonic reading; [addSec] saturates. *)
Definition Time_Add (t : Time) (d : Duration) : Time :=
  let dsec := Z.quot d 1000000000 in
  let nsec_ := nsec t + Z.rem d 1000000000 in
  let '(dsec, nsec_) :=
    if nsec_ >=? 1000000000 then (dsec + 1, nsec_ - 1000000000)
    else if nsec_ <? 0 then (dsec - 1, nsec_ + 1000000000)
    else (dsec, nsec_) in
  let sum := wrap64 (sec t + dsec) in
  let ext :=
    if Bool.eqb (sum >? sec t) (dsec >? 0) then sum
    else if dsec >? 0 then 2 ^ 63 - 1
    else - (2 ^ 63 - 1) in
  mkTime ext nsec_.

(** [Time.Equal] and [Time.Before]. *)
Definition Time_Equal (t u : Time) : bool := (sec t =? sec u) && (nsec t =? nsec u).
Definition Time_Before (t u : Time) : bool :=
  (sec t <? sec u) || ((sec t =? sec u) && (nsec t <? nsec u)).

(** [Time.Sub]: the difference, or the nearest [Duration] when it does not
    fit. *)
Definition Time_Sub (t u : Time) : Duration :=
  let d := wrap64 (wrap64 (wrap64 (sec t - sec u) * Second) + (nsec t - nsec u)) in
  if Time_Equal (Time_Add u d) t then d
  else if Time_Before t u then minDuration
  else maxDuration.

(** [float64(n)] of an integer: the sign is kept apart, the magnitude goes
    through the kernel's conversion of unsigned integers. *)
Fixpoint int_of_pos (p : positive) : PrimInt63.int :=
  match p with
  | xH => 1%uint63
  | xO q => PrimInt63.lsl (int_of_pos q) 1%uint63
  | xI q => PrimInt63.lor (PrimInt63.lsl (int_of_pos q) 1%uint63) 1%uint63
  end.

Definition float64 (z : Z) : float :=
  match z with
  | Z0 => PrimFloat.of_uint63 0%uint63
  | Zpos p => PrimFloat.of_uint63 (int_of_pos p)
  | Zneg p => PrimFloat.opp (PrimFloat.of_uint63 (int_of_pos p))
  end.

(** [Duration.Seconds]: [float64(d/Second) + float64(d%Second)/1e9] in
    IEEE 754 binary64; Go's [/] and [%] truncate towards zero. *)
Definition Duration_Seconds (d : Duration) : float :=
  let sec_ := Z.quot d Second in
  let nsec_ := Z.rem d Second in
  PrimFloat.add (float64 sec_) (PrimFloat.div (float64 nsec_) 1e9%float).

(** The byte [byte(digit) + '0']. *)
Definition digitChar (d : Z) : ascii := ascii_of_N (Z.to_N (d + 48)).

(** [fmtFrac(buf, v, prec)]: the text grows leftwards from [buf]; trailing
    zeros and a bare decimal point are omitted. *)
Fixpoint fmtFrac_loop (prec : nat) (buf : str) (v : Z) (print : bool) : str * Z * bool :=
  match prec with
  | O => (buf, v, print)
  | S prec' =>
    let digit := v mod 10 in
    let print := print || negb (digit =? 0) in
    let buf := if print then digitChar digit :: buf else buf in
    fmtFrac_loop prec' buf (v / 10) print
  end.

Definition fmtFrac (buf : str) (v : Z) (prec : nat) : str * Z :=
  let '(buf, v, print) := fmtFrac_loop prec buf v false in
  (if print then "."%char :: buf else buf, v).

(** [fmtInt(buf, v)]: a [uint64] has at most 20 decimal digits. *)
Fixpoint fmtInt_loop (fuel : nat) (buf : str) (v : Z) : str :=
  match fuel with
  | O => buf
  | S fuel' =>
    if v >? 0 then fmtInt_loop fuel' (digitChar (v mod 10) :: buf) (v / 10) else buf
  end.

Definition fmtInt (buf : str) (v : Z) : str :=
  if v =? 0 then "0"%char :: buf else fmtInt_loop 20 buf v.

(** [Duration.String], as [Duration.format] builds it from the right. *)
Definition Duration_String (d : Duration) : str :=
  let u := Z.abs d in
  let neg := d <? 0 in
  let body :=
    if u <? Second then
      if u =? 0 then lit "0s"
      else if u <? Microsecond then
        let '(buf, u) := fmtFrac (lit "ns") u 0 in fmtInt buf u
      else if u <? Millisecond then
        let '(buf, u) := fmtFrac (lit "µs") u 3 in fmtInt buf u
      else
        let '(buf, u) := fmtFrac (lit "ms") u 6 in fmtInt buf u
    else
      let '(buf, u) := fmtFrac (lit "s") u 9 in
      let buf := fmtInt buf (u mod 60) in
      let u := u / 60 in
      if u >? 0 then
        let buf := fmtInt ("m"%char :: buf) (u mod 60) in
        let u := u / 60 in
        if u >? 0 then fmtInt ("h"%char :: buf) u else buf
      else buf in
  if neg then "-"%char :: body else body.

(** ** Formatting and colours *)

(** [fmt.Sprintf("%-*v", wid, s)] for a string [s]: a width beyond
    [1e6] in magnitude is refused with the text [%!(BADWIDTH)] and no
    padding; otherwise [s] is followed by spaces up to [wid] runes. *)
Definition Sprintf_star_minus_v (wid : Z) (s : str) : str :=
  if (wid >? 1000000) || (wid <? -1000000) then lit "%!(BADWIDTH)" ++ s
  else
    let wid := if wid <? 0 then - wid else wid in
    if wid =? 0 then s
    else s ++ replicate (Z.to_nat (wid - RuneCountInString s)) " "%char.

(** The attributes of package [color] the program uses. *)
Inductive Attribute : Type :=
  | FgBlack | FgRed | FgGreen | FgYellow | FgBlue | FgMagenta | FgWhite | BgCyan.

(** What [color.New(attrs...).SprintfFunc()] keeps: the attributes it wraps
    its text in. *)
Definition colorFn : Type := list Attribute.

(** [LogLevelColors]. *)
Definition LogLevelColors : gmap str colorFn :=
  <[lit "V" := [FgWhite]]>
  (<[lit "D" := [FgBlue]]>
  (<[lit "I" := [FgGreen]]>
  (<[lit "W" := [FgYellow]]>
  (<[lit "E" := [FgRed]]>
  (<[lit "F" := [FgMagenta]]> ∅))))).

(** [TagColor]. *)
Definition TagColor : colorFn := [FgBlack; BgCyan].

(** What is written to standard output: plain text, and text produced by a
    colour function (the escape sequences around it are the colour
    package's, chosen by its global [NoColor]). *)
Inductive piece : Type :=
  | Plain (s : str)
  | Colored (c : colorFn) (s : str).

(** [fmt.Println(line)]. *)
Definition Println (line : str) : list piece := [Plain line; Plain newline].

(** The text of an output with the colouring left out. *)
Definition text_of_piece (p : piece) : str :=
  match p with
  | Plain s => s
  | Colored _ s => s
  end.

Definition text (out : list piece) : str := concat (map text_of_piece out).

(** ** The renderer *)

(** [LogcatOptions]. *)
Record LogcatOptions : Type := mkOptions {
  Filters : list str;
  Tag : str;
  Level : str;
  Device : str;
  MaxDelta : Duration;
  KeepGoing : bool
}.

(** [parseTimestamp]. *)
Definition parseTimestamp (line : str) : option Time :=
  let parts := strings_Fields line in
  if len parts <? 2 then None
  else
    match parts with
    | p0 :: p1 :: _ => time_Parse (p0 ++ lit " " ++ p1)
    | _ => None
    end.

(** The three results of [printColoredLog], with what it printed. *)
Definition printed : Type := list piece * (str * Time * str).

(** [printColoredLog]. *)
Definition printColoredLog (line lastTag : str) (lastTime : Time) (lastOther : str)
    (opts : LogcatOptions) : result printed :=
  parts ← findFieldIndices line 6;
  if len parts <? 6 then
    Ok (Println line, (lastTag, lastTime, lastOther))
  else
  levelIndex ← index parts 4;
  level ← slice line levelIndex (levelIndex + 1);
  match LogLevelColors !! level with
  | None => Ok (Println line, (lastTag, lastTime, lastOther))
  | Some colorFunc =>
  tagIndex ← index parts 5;
  rest ← slice_from line tagIndex;
  let colonIndex := strings_IndexRune rest ":" in
  if colonIndex =? -1 then
    Ok (Println line, (lastTag, lastTime, lastOther))
  else
  let colonIndex := colonIndex + tagIndex in
  tagText ← slice line tagIndex colonIndex;
  let tag := strings_TrimSpace tagText in
  tagSpace ← slice line (tagIndex + len tag) colonIndex;
  match parseTimestamp line with
  | None => Ok (Println line, (lastTag, lastTime, lastOther))
  | Some currentTime =>
  p1 ← index parts 1;
  p2 ← index parts 2;
  p4 ← index parts 4;
  o1 ← slice_to line p1;
  o2 ← slice line p2 p4;
  let other := o1 ++ o2 in
  let delta := Time_Sub currentTime lastTime in
  '(metadata, lastTime, lastOther) ←
    (if bool_decide (lastTag = tag)
        && PrimFloat.ltb (Duration_Seconds delta) (Duration_Seconds (MaxDelta opts))
     then Ok (Sprintf_star_minus_v levelIndex (lit "+" ++ Duration_String delta),
              lastTime, lastOther)
     else
       metadata ← slice_to line levelIndex;
       Ok (metadata, currentTime, other));
  message ← slice_from line (colonIndex + 2);
  Ok ([Plain metadata; Colored colorFunc level; Plain (lit " ");
       Colored TagColor tag; Plain tagSpace; Plain (lit " : ");
       Colored colorFunc message; Plain newline],
      (tag, lastTime, lastOther))
  end
  end.

(** ** The renderer in two halves

    [printColoredLog] reads its state only from the computation of [delta]
    on.  [parseLine] is its first half (up to the computation of [other]),
    with the derived fields of the line as a record, and [render] is the
    second half; [printColoredLog_parseLine] below shows that running one
    after the other is [printColoredLog]. *)

Record LogLine : Type := mkLogLine {
  levelIndex : Z;
  level : str;
  colorFunc : colorFn;
  tagIndex : Z;
  colonIndex : Z;
  tag : str;
  tagSpace : str;
  currentTime : Time;
  other : str
}.

(** The parsing steps of [printColoredLog]: [Ok None] where the source
    prints the line as it is and returns. *)
Definition parseLine (line : str) : result (option LogLine) :=
  parts ← findFieldIndices line 6;
  if len parts <? 6 then Ok None else
  levelIndex ← index parts 4;
  level ← slice line levelIndex (levelIndex + 1);
  match LogLevelColors !! level with
  | None => Ok None
  | Some colorFunc =>
  tagIndex ← index parts 5;
  rest ← slice_from line tagIndex;
  let colonIndex := strings_IndexRune rest ":" in
  if colonIndex =? -1 then Ok None else
  let colonIndex := colonIndex + tagIndex in
  tagText ← slice line tagIndex colonIndex;
  let tag := strings_TrimSpace tagText in
  tagSpace ← slice line (tagIndex + len tag) colonIndex;
  match parseTimestamp line with
  | None => Ok None
  | Some currentTime =>
  p1 ← index parts 1;
  p2 ← index parts 2;
  p4 ← index parts 4;
  o1 ← slice_to line p1;
  o2 ← slice line p2 p4;
  Ok (Some (mkLogLine levelIndex level colorFunc tagIndex colonIndex tag tagSpace
              currentTime (o1 ++ o2)))
  end
  end.

(** The condition of the [if] that chooses the metadata. *)
Definition deduplicated (lastTag : str) (lastTime : Time) (opts : LogcatOptions)
    (p : LogLine) : bool :=
  bool_decide (lastTag = tag p)
  && PrimFloat.ltb (Duration_Seconds (Time_Sub (currentTime p) lastTime))
                   (Duration_Seconds (MaxDelta opts)).

(** The rest of [printColoredLog], for a parsed line. *)
Definition render (line : str) (p : LogLine) (lastTag : str) (lastTime : Time)
    (lastOther : str) (opts : LogcatOptions) : result printed :=
  let delta := Time_Sub (currentTime p) lastTime in
  '(metadata, lastTime, lastOther) ←
    (if deduplicated lastTag lastTime opts p
     then Ok (Sprintf_star_minus_v (levelIndex p) (lit "+" ++ Duration_String delta),
              lastTime, lastOther)
     else
       metadata ← slice_to line (levelIndex p);
       Ok (metadata, currentTime p, other p));
  message ← slice_from line (colonIndex p + 2);
  Ok ([Plain metadata; Colored (colorFunc p) (level p); Plain (lit " ");
       Colored TagColor (tag p); Plain (tagSpace p); Plain (lit " : ");
       Colored (colorFunc p) message; Plain newline],
      (tag p, lastTime, lastOther)).


(** ** Tokens of a line, as the specification words them *)

(** The separator of fields: the space character. *)
Definition is_sep (c : ascii) : bool := Ascii.eqb c " ".

(** A token starts at offset [i]: a non-separator byte there, at the start
    of the line or right after a separator. *)
Definition token_start (line : str) (i : Z) : bool :=
  match byte_at line i with
  | Some c =>
    negb (is_sep c)
    && match byte_at line (i - 1) with
       | Some b => is_sep b
       | None => true
       end
  | None => false
  end.

(** The starting offsets of all tokens of a line, left to right. *)
Definition token_starts (line : str) : list Z :=
  filter (fun i => token_start line i = true) (seqZ 0 (len line)).

(** Tokens delimited by white space of any kind (tab, line feed, vertical
    tab, form feed, carriage return, space), for comparison. *)
Definition white_token_start (line : str) (i : Z) : bool :=
  match byte_at line i with
  | Some c =>
    negb (asciiSpace c)
    && match byte_at line (i - 1) with
       | Some b => asciiSpace b
       | None => true
       end
  | None => false
  end.

Definition white_token_starts (line : str) : list Z :=
  filter (fun i => white_token_start line i = true) (seqZ 0 (len line)).


(** The loop of [findFieldIndices] read byte by byte, and the token starts
    computed by one pass: two stepping stones between the source and
    [token_starts]. *)
Fixpoint byte_loop (maxFields : Z) (indices : list Z) (inField : bool) (i : Z)
    (s : str) : list Z :=
  match s with
  | [] => indices
  | c :: rest =>
    if negb (is_sep c) && negb inField then
      let indices := indices ++ [i] in
      if len indices >=? maxFields then indices
      else byte_loop maxFields indices true (i + 1) rest
    else if is_sep c then byte_loop maxFields indices false (i + 1) rest
    else byte_loop maxFields indices inField (i + 1) rest
  end.

Fixpoint starts_from (prevSep : bool) (i : Z) (s : str) : list Z :=
  match s with
  | [] => []
  | c :: rest =>
    (if negb (is_sep c) && prevSep then [i] else []) ++ starts_from (is_sep c) (i + 1) rest
  end.

(** The default options of [parseArgs]: no filters, [-delta] at 10s. *)
Definition defaultOptions : LogcatOptions := mkOptions [] [] [] [] (10 * Second) false.

(** The example line of the source. *)
Definition exampleLine : str :=
  lit "04-19 19:34:18.813  5587  5708 I artd    : GetBestInfo no usable artifacts".

(** The same record one millisecond later. *)
Definition exampleLineLater : str :=
  lit "04-19 19:34:18.814  5587  5708 I artd    : GetBestInfo no usable artifacts".

(** The time and the other-text of [exampleLine]. *)
Definition exampleTime : Time := mkTime (-22134342) 813000000.
Definition exampleOther : str := lit "04-19 5587  5708 ".


(** A record whose colon is its last byte. *)
Definition colonLastLine : str := lit "04-19 19:34:18.813  5587  5708 I artd:".

(** A record whose tag text starts with a tab. *)
Definition tabTagLine : str :=
  lit "04-19 19:34:18.813  5587  5708 I " ++ [tab] ++ lit "artd  : msg".

(** ** The rest of the program: the scanning loop, the [adb] command line and
    the arguments *)

(** The [for scanner.Scan()] loop of [main]: every line the scanner
    delivers goes through [printColoredLog], which hands the three state
    values on to the next line.  What has been written to standard output
    is kept apart from the outcome, since a panic leaves the earlier output
    in place. *)
Fixpoint scanLoop (lines : list str) (lastTag : str) (lastTime : Time)
    (lastOther : str) (opts : LogcatOptions) (stdout : list piece)
    : list piece * result (str * Time * str) :=
  match lines with
  | [] => (stdout, Ok (lastTag, lastTime, lastOther))
  | line :: rest =>
    match printColoredLog line lastTag lastTime lastOther opts with
    | Ok (out, (lastTag, lastTime, lastOther)) =>
      scanLoop rest lastTag lastTime lastOther opts (stdout ++ out)
    | Panic q => (stdout, Panic q)
    end
  end.

(** One run of the [adb] command in [main]: the state starts at
    [lastTag := ""], [lastTime := time.Time{}], [lastOther := ""]. *)
Definition session (lines : list str) (opts : LogcatOptions)
    : list piece * result (str * Time * str) :=
  scanLoop lines [] zeroTime [] opts [].

(** [buildAdbCommand]: the argument vector of the command
    [exec.Command("adb", args...)], the program name first. *)
Definition buildAdbCommand (opts : LogcatOptions) : list str :=
  let args := [lit "logcat"; lit "-v"; lit "threadtime"] in
  let args :=
    if bool_decide (Device opts = lit "-d") then [lit "-d"] ++ args
    else if bool_decide (Device opts = lit "-e") then [lit "-e"] ++ args
    else [lit "-s"; Device opts] ++ args in
  let args :=
    if negb (bool_decide (Tag opts = [])) && negb (bool_decide (Level opts = []))
    then args ++ [Tag opts ++ lit ":" ++ Level opts]
    else args in
  let args :=
    fold_left (fun args filter => args ++ [lit "-s"; filter]) (Filters opts) args in
  lit "adb" :: args.

(** [strings.HasPrefix]. *)
Definition strings_HasPrefix (s prefix : str) : bool :=
  (len s >=? len prefix) && bool_decide (substr s 0 (len prefix) = prefix).

(** The test [isDashD] of [parseArgs]. *)
Definition isDashD (arg : str) : bool :=
  bool_decide (arg = lit "-d") || bool_decide (arg = lit "--d")
  || strings_HasPrefix arg (lit "-d=") || strings_HasPrefix arg (lit "--d=").

(** The loop of [parseArgs] over [os.Args[1:]] that runs before
    [fs.Parse]: [todo] is what is left of [originalCmdArgs] from index [i]
    on; the loop fills [filteredCmdArgs] and may set [opts.Device]. *)
Fixpoint filterCmdArgs_loop (originalCmdArgs : list str) (i : Z) (todo : list str)
    (filteredCmdArgs : list str) (device : str) : result (list str * str) :=
  match todo with
  | [] => Ok (filteredCmdArgs, device)
  | arg :: todo' =>
    if isDashD arg then
      if i + 1 =? len originalCmdArgs then
        filterCmdArgs_loop originalCmdArgs (i + 1) todo' filteredCmdArgs (lit "-d")
      else if i + 1 <? len originalCmdArgs then
        match originalCmdArgs !! Z.to_nat (i + 1) with
        | Some nextArg =>
          if strings_HasPrefix nextArg (lit "-") then
            filterCmdArgs_loop originalCmdArgs (i + 1) todo' filteredCmdArgs (lit "-d")
          else
            filterCmdArgs_loop originalCmdArgs (i + 1) todo' (filteredCmdArgs ++ [arg])
              device
        | None => Panic IndexOutOfRange
        end
      else
        filterCmdArgs_loop originalCmdArgs (i + 1) todo' (filteredCmdArgs ++ [arg]) device
    else
      filterCmdArgs_loop originalCmdArgs (i + 1) todo' (filteredCmdArgs ++ [arg]) device
  end.

(** The arguments handed to [fs.Parse] and the [opts.Device] set so far
    ([""] in a fresh [LogcatOptions]). *)
Definition filterCmdArgs (originalCmdArgs : list str) : result (list str * str) :=
  filterCmdArgs_loop originalCmdArgs 0 originalCmdArgs [] [].

(** The same filter by looking one argument ahead: the arguments kept, and
    whether one was dropped. *)
Fixpoint keptArgs (args : list str) : list str * bool :=
  match args with
  | [] => ([], false)
  | arg :: rest =>
    let '(kept, dropped) := keptArgs rest in
    if isDashD arg
       && match rest with
          | [] => true
          | nextArg :: _ => strings_HasPrefix nextArg (lit "-")
          end
    then (kept, true)
    else (arg :: kept, dropped)
  end.

(** In a list of arguments, every argument of the [-d] forms is followed by
    an argument that does not start with [-]. *)
Definition dash_d_has_value (args : list str) : Prop :=
  forall pre arg post,
    args = pre ++ arg :: post ->
    isDashD arg = true ->
    exists nextArg post', post = nextArg :: post'
                          /\ strings_HasPrefix nextArg (lit "-") = false.

(** The colour of each level letter, as a list. *)
Definition levelColours : list (str * colorFn) :=
  [(lit "V", [FgWhite]); (lit "D", [FgBlue]); (lit "I", [FgGreen]);
   (lit "W", [FgYellow]); (lit "E", [FgRed]); (lit "F", [FgMagenta])].

(** The output and the state without the other-text. *)
Definition withoutOther (r : result printed) : result (list piece * (str * Time)) :=
  match r with
  | Ok (out, (lastTag, lastTime, _)) => Ok (out, (lastTag, lastTime))
  | Panic q => Panic q
  end.

(** * Properties *)

(** ** Bytes and slices *)

Lemma byteZ_range (c : ascii) : 0 <= byteZ c < 256.
Proof.
  unfold byteZ. pose proof (N_ascii_bounded c) as H. lia.
Qed.

Lemma byteZ_inj (a b : ascii) : byteZ a = byteZ b -> a = b.
Proof.
  unfold byteZ. intros H. apply N2Z.inj in H.
  rewrite <- (ascii_N_embedding a), <- (ascii_N_embedding b). by rewrite H.
Qed.

Lemma is_sep_byteZ (c : ascii) : is_sep c = (byteZ c =? space).
Proof.
  unfold is_sep. destruct (Ascii.eqb_spec c " ") as [->|Hne].
  - reflexivity.
  - symmetry. apply Z.eqb_neq. intros H. apply Hne. by apply byteZ_inj.
Qed.

Lemma len_nonneg {A} (l : list A) : 0 <= len l.
Proof. unfold len. lia. Qed.

Lemma len_cons {A} (x : A) (l : list A) : len (x :: l) = len l + 1.
Proof. unfold len. cbn [length]. lia. Qed.

Lemma len_app {A} (l k : list A) : len (l ++ k) = len l + len k.
Proof. unfold len. rewrite length_app. lia. Qed.

Lemma len_substr (s : str) (lo hi : Z) :
  0 <= lo <= hi -> hi <= len s -> len (substr s lo hi) = hi - lo.
Proof.
  intros H1 H2. unfold substr, len in *. rewrite length_take, length_drop. lia.
Qed.

Lemma len_substr_le (s : str) (lo hi : Z) : len (substr s lo hi) <= len s.
Proof.
  unfold substr, len. rewrite length_take, length_drop. lia.
Qed.

Lemma slice_Ok (s : str) (lo hi : Z) :
  0 <= lo <= hi -> hi <= len s -> slice s lo hi = Ok (substr s lo hi).
Proof.
  intros [H1 H2] H3. unfold slice.
  rewrite (proj2 (Z.leb_le _ _) H1), (proj2 (Z.leb_le _ _) H2), (proj2 (Z.leb_le _ _) H3).
  reflexivity.
Qed.

Lemma slice_Panic (s : str) (lo hi : Z) :
  lo < 0 \/ hi < lo \/ len s < hi -> slice s lo hi = Panic SliceBoundsOutOfRange.
Proof.
  intros H. unfold slice.
  destruct (Z.leb_spec 0 lo), (Z.leb_spec lo hi), (Z.leb_spec hi (len s));
    cbn; try reflexivity; lia.
Qed.

(** ** Ranging over a string visits the separators byte by byte *)

Lemma decoderune_spec (s : str) (r : Z) (w : nat) :
  utf8.decoderune s = (r, w) ->
  r <> space /\ (1 <= w)%nat /\
  Forall (fun b => utf8.runeSelf <= byteZ b) (take (Nat.pred w) (drop 1 s)).
Proof.
  unfold utf8.decoderune, utf8.cont, space.
  intros H.
  repeat match type of H with
  | (match ?l with [] => _ | _ :: _ => _ end) = _ => destruct l
  | (if ?b then _ else _) = _ => destruct b eqn:?
  | context [let r := ?e in _] => cbv zeta in H
  end;
  injection H as <- <-;
  cbn [Nat.pred drop take];
  repeat match goal with
  | E : (_ && _)%bool = true |- _ => apply andb_prop in E; destruct E
  | E : (_ <=? _) = true |- _ => apply Z.leb_le in E
  | E : (_ <? _) = true |- _ => apply Z.ltb_lt in E
  end;
  unfold utf8.runeSelf, utf8.locb, utf8.rune1Max, utf8.rune2Max, utf8.rune3Max,
    utf8.runeError in *;
  (split; [lia | split; [lia | repeat constructor; lia]]).
Qed.


Lemma decode_spec (c : ascii) (rest : str) (r : Z) (w : nat) :
  utf8.decode (c :: rest) = (r, w) ->
  (r =? space) = is_sep c /\ (1 <= w)%nat /\
  ((1 < w)%nat -> r <> space) /\
  Forall (fun b => is_sep b = false) (take (Nat.pred w) rest).
Proof.
  unfold utf8.decode. destruct (Z.ltb_spec (byteZ c) utf8.runeSelf) as [Hlt|Hge].
  - intros [= <- <-]. rewrite is_sep_byteZ. cbn. repeat split; try lia. constructor.
  - intros H. apply decoderune_spec in H as (Hr & Hw & Hall). cbn [drop] in Hall.
    rewrite is_sep_byteZ. repeat split; try done.
    + rewrite (proj2 (Z.eqb_neq _ _) Hr). symmetry. apply Z.eqb_neq.
      unfold utf8.runeSelf, space in *. lia.
    + eapply Forall_impl; [exact Hall|]. intros b Hb. rewrite is_sep_byteZ.
      apply Z.eqb_neq. unfold utf8.runeSelf, space in *. lia.
Qed.

Lemma range_loop_bytes (maxFields : Z) (s : str) :
  forall (i : Z) (skip : nat) (indices : list Z) (inField : bool),
    ((0 < skip)%nat -> inField = true) ->
    Forall (fun b => is_sep b = false) (take skip s) ->
    findFieldIndices_loop maxFields indices inField (utf8.range_go i skip s)
    = byte_loop maxFields indices inField i s.
Proof.
  induction s as [|c rest IH]; intros i skip indices inField Hin Hall; [done|].
  destruct skip as [|k].
  - cbn [utf8.range_go byte_loop].
    destruct (utf8.decode (c :: rest)) as [r w] eqn:Hdec.
    apply decode_spec in Hdec as (Hsp & Hw & Hne & Hrest).
    cbn [findFieldIndices_loop]. rewrite Hsp.
    assert (Hk : (0 < Nat.pred w)%nat -> is_sep c = false).
    { intros Hp. rewrite <- Hsp. apply Z.eqb_neq, Hne. lia. }
    destruct (is_sep c) eqn:Hc; cbn [negb andb].
    + apply IH; [|done]. intros Hp. by specialize (Hk Hp).
    + destruct inField; cbn [negb].
      * by apply IH.
      * destruct (len (indices ++ [i]) >=? maxFields); [done|]. by apply IH.
  - cbn [utf8.range_go byte_loop].
    rewrite Hin by lia. cbn [take] in Hall. inversion Hall as [|? ? Hc Hall']; subst.
    rewrite Hc. cbn [negb andb]. apply IH; [done|exact Hall'].
Qed.

Lemma findFieldIndices_bytes (line : str) (maxFields : Z) :
  0 <= maxFields ->
  findFieldIndices line maxFields = Ok (byte_loop maxFields [] false 0 line).
Proof.
  intros H. unfold findFieldIndices. rewrite (proj2 (Z.ltb_ge _ _) H).
  f_equal. unfold utf8.range. apply range_loop_bytes; [lia|constructor].
Qed.

(** ** The byte loop collects the first token starts *)

Lemma byte_loop_starts (maxFields : Z) (s : str) :
  forall (indices : list Z) (inField : bool) (i : Z),
    len indices < maxFields ->
    byte_loop maxFields indices inField i s
    = take (Z.to_nat maxFields) (indices ++ starts_from (negb inField) i s).
Proof.
  induction s as [|c rest IH]; intros indices inField i Hlen.
  - cbn. rewrite app_nil_r, take_ge; [done|]. unfold len in Hlen. lia.
  - cbn [byte_loop starts_from].
    destruct (is_sep c) eqn:Hc; cbn [negb andb].
    + rewrite IH by done. reflexivity.
    + destruct inField; cbn [negb app].
      * rewrite IH by done. reflexivity.
      * destruct (Z.geb_spec (len (indices ++ [i])) maxFields) as [Hge|Hlt].
        -- rewrite len_app in Hge. change (len [i]) with 1 in Hge.
           rewrite (cons_middle i indices (starts_from _ _ _)), app_assoc.
           rewrite take_app_le; [|rewrite length_app; unfold len in *; cbn; lia].
           rewrite take_ge; [done|]. rewrite length_app. unfold len in *. cbn. lia.
        -- rewrite IH by lia. cbn [negb]. by rewrite <- app_assoc.
Qed.

Lemma starts_from_bounds (s : str) :
  forall (prevSep : bool) (i x : Z), x ∈ starts_from prevSep i s -> i <= x < i + len s.
Proof.
  induction s as [|c rest IH]; intros prevSep i x Hx; cbn in Hx.
  - by apply elem_of_nil in Hx.
  - rewrite len_cons. apply elem_of_app in Hx as [Hx|Hx].
    + destruct (negb (is_sep c) && prevSep).
      * apply list_elem_of_singleton in Hx. pose proof (len_nonneg rest). lia.
      * by apply elem_of_nil in Hx.
    + apply IH in Hx. lia.
Qed.

Lemma starts_from_sorted (s : str) :
  forall (prevSep : bool) (i : Z), StronglySorted Z.lt (starts_from prevSep i s).
Proof.
  induction s as [|c rest IH]; intros prevSep i; cbn [starts_from].
  - constructor.
  - destruct (negb (is_sep c) && prevSep); cbn [app]; [|apply IH].
    constructor; [apply IH|].
    apply Forall_forall. intros x Hx. apply starts_from_bounds in Hx. lia.
Qed.

Lemma byte_at_app_r (pre suf : str) (k : Z) :
  0 <= k -> byte_at (pre ++ suf) (len pre + k) = byte_at suf k.
Proof.
  intros Hk. unfold byte_at, len.
  rewrite (proj2 (Z.ltb_ge _ _)) by lia. rewrite (proj2 (Z.ltb_ge _ _)) by lia.
  rewrite lookup_app_r by lia. f_equal. lia.
Qed.

Lemma byte_at_last (pre : str) : byte_at pre (len pre - 1) = last pre.
Proof.
  unfold byte_at, len. destruct pre as [|c pre] using rev_ind; [done|].
  rewrite length_app. cbn [length].
  rewrite (proj2 (Z.ltb_ge _ _)) by lia. rewrite last_snoc.
  rewrite lookup_app_r by lia.
  replace (Z.to_nat _ - length pre)%nat with 0%nat by lia. done.
Qed.

Lemma byte_at_app_l (pre suf : str) (k : Z) :
  k < len pre -> byte_at (pre ++ suf) k = byte_at pre k.
Proof.
  intros Hk. unfold byte_at, len in *. destruct (k <? 0) eqn:E; [done|].
  apply Z.ltb_ge in E. apply lookup_app_l. lia.
Qed.

Lemma token_start_boundary (pre suf : str) (c : ascii) :
  token_start (pre ++ c :: suf) (len pre)
  = negb (is_sep c) && match last pre with Some b => is_sep b | None => true end.
Proof.
  unfold token_start.
  replace (len pre) with (len pre + 0) at 1 by lia.
  rewrite byte_at_app_r by lia. change (byte_at (c :: suf) 0) with (Some c).
  f_equal. rewrite byte_at_app_l by lia. by rewrite byte_at_last.
Qed.

Lemma token_starts_from (suf : str) :
  forall pre : str,
    filter (fun i => token_start (pre ++ suf) i = true) (seqZ (len pre) (len suf))
    = starts_from (match last pre with Some b => is_sep b | None => true end)
        (len pre) suf.
Proof.
  induction suf as [|c suf IH]; intros pre; [done|].
  rewrite len_cons, seqZ_cons by (pose proof (len_nonneg suf); lia).
  rewrite filter_cons, token_start_boundary. cbn [starts_from].
  replace (Z.pred (len suf + 1)) with (len suf) by lia.
  specialize (IH (pre ++ [c])).
  rewrite <- app_assoc, last_snoc, len_app in IH. cbn [app] in IH.
  change (len [c]) with 1 in IH. replace (Z.succ (len pre)) with (len pre + 1) by lia.
  rewrite IH.
  destruct (negb (is_sep c) && _) eqn:E.
  - by rewrite decide_True.
  - by rewrite decide_False.
Qed.

Lemma token_starts_eq (line : str) : token_starts line = starts_from true 0 line.
Proof.
  unfold token_starts. apply (token_starts_from line []).
Qed.

(** ** What [findFieldIndices] returns *)

Lemma byte_loop_zero (s : str) :
  forall (inField : bool) (i : Z),
    byte_loop 0 [] inField i s = byte_loop 1 [] inField i s.
Proof.
  induction s as [|c rest IH]; intros inField i; [done|].
  cbn [byte_loop]. destruct (negb (is_sep c) && negb inField); [done|].
  destruct (is_sep c); apply IH.
Qed.

(** For a capacity that [make] accepts, the result is the first
    [max 1 maxFields] token starts: the test that ends the loop comes after
    the first offset has been stored. *)
Lemma findFieldIndices_token_starts (line : str) (maxFields : Z) :
  0 <= maxFields ->
  findFieldIndices line maxFields
  = Ok (take (Z.to_nat (Z.max 1 maxFields)) (token_starts line)).
Proof.
  intros H. rewrite findFieldIndices_bytes by done. f_equal.
  rewrite token_starts_eq.
  destruct (decide (maxFields = 0)) as [->|Hne].
  - rewrite byte_loop_zero. by rewrite byte_loop_starts.
  - rewrite byte_loop_starts by (unfold len; cbn [length]; lia).
    by rewrite Z.max_r by lia.
Qed.

Lemma token_starts_sorted (line : str) : StronglySorted Z.lt (token_starts line).
Proof. rewrite token_starts_eq. apply starts_from_sorted. Qed.

Lemma token_starts_bounds (line : str) (x : Z) :
  x ∈ token_starts line -> 0 <= x < len line.
Proof.
  rewrite token_starts_eq. intros Hx. apply starts_from_bounds in Hx. lia.
Qed.

Lemma token_starts_token_start (line : str) (x : Z) :
  x ∈ token_starts line -> token_start line x = true.
Proof. unfold token_starts. rewrite list_elem_of_filter. by intros [? _]. Qed.

Lemma take_sorted (n : nat) (l : list Z) :
  StronglySorted Z.lt l -> StronglySorted Z.lt (take n l).
Proof.
  intros H. rewrite <- (take_drop n l) in H. by apply StronglySorted_app_1_l in H.
Qed.

Lemma elem_of_take_elem_of {A} (n : nat) (l : list A) (x : A) : x ∈ take n l -> x ∈ l.
Proof.
  rewrite elem_of_take. intros (i & Hi & _). by eapply list_elem_of_lookup_2.
Qed.

(** Six field starts are six increasing offsets into the line. *)
Lemma findFieldIndices_six (line : str) (parts : list Z) :
  findFieldIndices line 6 = Ok parts ->
  (len parts <? 6) = false ->
  exists a0 a1 a2 a3 a4 a5 : Z,
    parts = [a0; a1; a2; a3; a4; a5]
    /\ 0 <= a0 < a1 /\ a1 < a2 /\ a2 < a3 /\ a3 < a4 /\ a4 < a5 /\ a5 < len line.
Proof.
  rewrite findFieldIndices_token_starts by lia. intros [= <-] Hlen.
  apply Z.ltb_ge in Hlen.
  change (Z.to_nat (Z.max 1 6)) with 6%nat in *.
  pose proof (take_sorted 6 _ (token_starts_sorted line)) as Hs.
  assert (Hb : forall x, x ∈ take 6 (token_starts line) -> 0 <= x < len line).
  { intros x Hx. by apply token_starts_bounds, (elem_of_take_elem_of 6). }
  assert (Hle : (length (take 6 (token_starts line)) <= 6)%nat).
  { rewrite length_take. lia. }
  destruct (take 6 (token_starts line)) as [|a0 [|a1 [|a2 [|a3 [|a4 [|a5 [|a6 l]]]]]]];
    unfold len in Hlen; cbn [length] in Hlen, Hle; try lia.
  exists a0, a1, a2, a3, a4, a5. split; [done|].
  repeat match goal with
  | H : StronglySorted _ (_ :: _) |- _ =>
    apply StronglySorted_cons in H as [? H]
  | H : Forall _ (_ :: _) |- _ => apply Forall_cons in H as [? H]
  end.
  assert (0 <= a0 < len line) by (apply Hb; repeat constructor).
  assert (0 <= a5 < len line) by (apply Hb; repeat constructor).
  lia.
Qed.

(** ** Library functions: what the renderer relies on *)

Lemma IndexByte_from_spec (s : str) (c : ascii) :
  forall i : Z,
    (IndexByte_from i s c = -1 /\ c ∉ s)
    \/ (i <= IndexByte_from i s c < i + len s
        /\ s !! Z.to_nat (IndexByte_from i s c - i) = Some c
        /\ c ∉ take (Z.to_nat (IndexByte_from i s c - i)) s)
    \/ i < 0.
Proof.
  induction s as [|b rest IH]; intros i; cbn [IndexByte_from].
  - left. split; [done|]. apply not_elem_of_nil.
  - destruct (Z.ltb_spec i 0) as [Hneg|Hi]; [by right; right|].
    destruct (Ascii.eqb_spec b c) as [->|Hne].
    + right; left. rewrite len_cons, Z.sub_diag. pose proof (len_nonneg rest).
      repeat split; try lia. cbn. apply not_elem_of_nil.
    + destruct (IH (i + 1)) as [[Hk Hnot]|[(Hk & Hl & Hnot)|?]]; [| |lia].
      * left. split; [done|]. rewrite not_elem_of_cons. by split.
      * right; left. rewrite len_cons.
        replace (Z.to_nat (IndexByte_from (i + 1) rest c - i))
          with (S (Z.to_nat (IndexByte_from (i + 1) rest c - (i + 1)))) by lia.
        cbn [lookup take]. repeat split; try lia; try done.
        rewrite not_elem_of_cons. by split.
Qed.

Lemma IndexRune_spec (s : str) (c : ascii) :
  (strings_IndexRune s c = -1 /\ c ∉ s)
  \/ (0 <= strings_IndexRune s c < len s
      /\ s !! Z.to_nat (strings_IndexRune s c) = Some c
      /\ c ∉ take (Z.to_nat (strings_IndexRune s c)) s).
Proof.
  unfold strings_IndexRune, strings_IndexByte.
  destruct (IndexByte_from_spec s c 0) as [H|[H|H]]; [by left| |lia].
  right. by rewrite Z.sub_0_r, Z.add_0_l in H.
Qed.

Lemma len_TrimLeftFunc (s : str) (f : Z -> bool) : len (strings_TrimLeftFunc s f) <= len s.
Proof.
  unfold strings_TrimLeftFunc. destruct (_ =? -1).
  - apply len_nonneg.
  - apply len_substr_le.
Qed.

Lemma len_TrimRightFunc (s : str) (f : Z -> bool) : len (strings_TrimRightFunc s f) <= len s.
Proof. unfold strings_TrimRightFunc. apply len_substr_le. Qed.

(** Trimming never lengthens. *)
Lemma len_TrimSpace (s : str) : len (strings_TrimSpace s) <= len s.
Proof.
  unfold strings_TrimSpace, strings_TrimFunc.
  destruct (TrimSpace_left 0 s) as [start|start].
  - destruct (TrimSpace_right _ _) as [stop|stop].
    + apply len_substr_le.
    + etrans; [apply len_TrimRightFunc|]. apply len_substr_le.
  - etrans; [apply len_TrimRightFunc|]. etrans; [apply len_TrimLeftFunc|].
    apply len_substr_le.
Qed.

(** The keys of [LogLevelColors] are the six level letters. *)
Lemma LogLevelColors_lookup (level : str) :
  LogLevelColors !! level
  = if bool_decide (level = lit "V") then Some [FgWhite]
    else if bool_decide (level = lit "D") then Some [FgBlue]
    else if bool_decide (level = lit "I") then Some [FgGreen]
    else if bool_decide (level = lit "W") then Some [FgYellow]
    else if bool_decide (level = lit "E") then Some [FgRed]
    else if bool_decide (level = lit "F") then Some [FgMagenta]
    else None.
Proof.
  unfold LogLevelColors.
  repeat (case_bool_decide;
          [subst level; by rewrite lookup_insert_eq
          |rewrite (lookup_insert_ne _ _ level) by done]).
  apply lookup_empty.
Qed.


(** ** [printColoredLog] is [parseLine] followed by [render] *)

Lemma printColoredLog_parseLine (line lastTag : str) (lastTime : Time)
    (lastOther : str) (opts : LogcatOptions) :
  printColoredLog line lastTag lastTime lastOther opts
  = r ← parseLine line;
    match r with
    | None => Ok (Println line, (lastTag, lastTime, lastOther))
    | Some p => render line p lastTag lastTime lastOther opts
    end.
Proof.
  unfold printColoredLog, parseLine, render, deduplicated.
  repeat (match goal with
  | |- context [mbind _ ?r] =>
    lazymatch r with
    | findFieldIndices _ _ => destruct r as [?|?] eqn:?
    | index _ _ => destruct r as [?|?] eqn:?
    | slice _ _ _ => destruct r as [?|?] eqn:?
    | slice_from _ _ => destruct r as [?|?] eqn:?
    | slice_to _ _ => destruct r as [?|?] eqn:?
    end
  | |- context [if ?b then _ else _] =>
    lazymatch b with
    | len _ <? 6 => destruct b
    | _ =? -1 => destruct b
    end
  | |- context [LogLevelColors !! ?l] => destruct (LogLevelColors !! l)
  | |- context [parseTimestamp ?l] => destruct (parseTimestamp l)
  end;
  cbn [mbind result_bind levelIndex level colorFunc tagIndex colonIndex tag tagSpace
       currentTime other];
  simplify_eq;
  try reflexivity).
Qed.

(** ** [parseLine] never panics *)

(** With six field starts in hand, every slice of the parsing steps is in
    range, and the steps come down to three tests. *)
Lemma parseLine_six (line : str) (a0 a1 a2 a3 a4 a5 : Z) :
  findFieldIndices line 6 = Ok [a0; a1; a2; a3; a4; a5] ->
  0 <= a0 < a1 -> a1 < a2 -> a2 < a3 -> a3 < a4 -> a4 < a5 -> a5 < len line ->
  parseLine line
  = let level := substr line a4 (a4 + 1) in
    match LogLevelColors !! level with
    | None => Ok None
    | Some colorFunc =>
      let k := strings_IndexRune (substr line a5 (len line)) ":" in
      if k =? -1 then Ok None
      else
        let tag := strings_TrimSpace (substr line a5 (k + a5)) in
        match parseTimestamp line with
        | None => Ok None
        | Some currentTime =>
          Ok (Some (mkLogLine a4 level colorFunc a5 (k + a5) tag
                      (substr line (a5 + len tag) (k + a5)) currentTime
                      (substr line 0 a1 ++ substr line a2 a4)))
        end
    end.
Proof.
  intros Hf H0 H1 H2 H3 H4 H5. unfold parseLine. rewrite Hf.
  cbn [mbind result_bind]. change (len [a0; a1; a2; a3; a4; a5] <? 6) with false.
  cbv iota. change (index [a0; a1; a2; a3; a4; a5] 4) with (Ok a4).
  change (index [a0; a1; a2; a3; a4; a5] 5) with (Ok a5).
  change (index [a0; a1; a2; a3; a4; a5] 1) with (Ok a1).
  change (index [a0; a1; a2; a3; a4; a5] 2) with (Ok a2).
  cbn [mbind result_bind]. unfold slice_from, slice_to.
  rewrite (slice_Ok line a4 (a4 + 1)), (slice_Ok line a2 a4), (slice_Ok line 0 a1),
    (slice_Ok line a5 (len line)) by lia.
  cbn [mbind result_bind].
  cbv zeta. destruct (LogLevelColors !! _) as [colorFunc|]; [|done].
  destruct (IndexRune_spec (substr line a5 (len line)) ":") as [[-> _]|(Hk & _)]; [done|].
  rewrite len_substr in Hk by lia.
  rewrite (proj2 (Z.eqb_neq _ _)) by lia.
  rewrite slice_Ok by lia. cbn [mbind result_bind].
  pose proof (len_TrimSpace (substr line a5 (strings_IndexRune (substr line a5 (len line)) ":" + a5))) as Ht.
  rewrite len_substr in Ht by lia.
  pose proof (len_nonneg (strings_TrimSpace (substr line a5 (strings_IndexRune (substr line a5 (len line)) ":" + a5)))).
  rewrite slice_Ok by lia. cbn [mbind result_bind].
  by destruct (parseTimestamp line).
Qed.

(** The parsing steps always come to an end without a panic. *)
Lemma parseLine_total (line : str) : exists r, parseLine line = Ok r.
Proof.
  destruct (findFieldIndices line 6) as [parts|] eqn:Hf.
  - destruct (len parts <? 6) eqn:Hlen.
    + exists None. unfold parseLine. rewrite Hf. cbn [mbind result_bind]. by rewrite Hlen.
    + destruct (findFieldIndices_six _ _ Hf Hlen)
        as (a0 & a1 & a2 & a3 & a4 & a5 & -> & ? & ? & ? & ? & ? & ?).
      rewrite (parseLine_six line a0 a1 a2 a3 a4 a5) by done. cbv zeta.
      destruct (LogLevelColors !! _); [|by eexists].
      destruct (_ =? -1); [by eexists|].
      destruct (parseTimestamp line); by eexists.
  - unfold findFieldIndices in Hf. discriminate Hf.
Qed.

(** The only panic of [printColoredLog] is the slice that takes the message:
    it happens when a line parses and its colon is its last byte. *)
Lemma printColoredLog_panic (line lastTag : str) (lastTime : Time) (lastOther : str)
    (opts : LogcatOptions) (q : panic) :
  printColoredLog line lastTag lastTime lastOther opts = Panic q
  <-> exists p, parseLine line = Ok (Some p) /\ colonIndex p = len line - 1
               /\ q = SliceBoundsOutOfRange.
Proof.
  rewrite printColoredLog_parseLine.
  destruct (findFieldIndices line 6) as [parts|] eqn:Hf;
    [|unfold findFieldIndices in Hf; discriminate Hf].
  destruct (len parts <? 6) eqn:Hlen.
  { unfold parseLine. rewrite Hf. cbn [mbind result_bind]. rewrite Hlen.
    cbn [mbind result_bind]. split; [done|]. by intros (p & ? & _). }
  destruct (findFieldIndices_six _ _ Hf Hlen)
    as (a0 & a1 & a2 & a3 & a4 & a5 & -> & ? & ? & ? & ? & ? & ?).
  rewrite (parseLine_six line a0 a1 a2 a3 a4 a5) by done. cbv zeta.
  destruct (LogLevelColors !! _) as [cf|];
    [|cbn [mbind result_bind]; split; [done|by intros (p & ? & _)]].
  destruct (IndexRune_spec (substr line a5 (len line)) ":") as [[-> _]|(Hk & _)].
  { cbn [mbind result_bind Z.eqb]. split; [done|]. by intros (p & ? & _). }
  rewrite len_substr in Hk by lia.
  rewrite (proj2 (Z.eqb_neq _ _)) by lia.
  destruct (parseTimestamp line) as [t|];
    [|cbn [mbind result_bind]; split; [done|by intros (p & ? & _)]].
  cbn [mbind result_bind]. unfold render.
  cbn [levelIndex level colorFunc tagIndex colonIndex tag tagSpace currentTime other].
  unfold slice_to, slice_from. rewrite (slice_Ok line 0 a4) by lia.
  set (k := strings_IndexRune (substr line a5 (len line)) ":") in *.
  destruct (deduplicated _ _ _ _); cbn [mbind result_bind].
  all: destruct (Z.leb_spec (k + a5 + 2) (len line)) as [Hle|Hgt].
  all: try (rewrite slice_Ok by lia; cbn [mbind result_bind]; split;
            [done|intros (p & [= <-] & Hc & _); cbn in Hc; lia]).
  all: rewrite slice_Panic by lia; cbn [mbind result_bind]; split;
       [intros [= <-]; eexists; split; [reflexivity|]; cbn; split; [lia|done]
       |by intros (p & _ & _ & ->)].
Qed.

(** ** Pass-through *)



Lemma parseLine_fewer (line : str) (parts : list Z) :
  findFieldIndices line 6 = Ok parts -> len parts < 6 -> parseLine line = Ok None.
Proof.
  intros Hf Hlen. unfold parseLine. rewrite Hf. cbn [mbind result_bind].
  by rewrite (proj2 (Z.ltb_lt _ _) Hlen).
Qed.

Lemma passthrough (line lastTag : str) (lastTime : Time) (lastOther : str)
    (opts : LogcatOptions) :
  parseLine line = Ok None ->
  printColoredLog line lastTag lastTime lastOther opts
  = Ok (Println line, (lastTag, lastTime, lastOther)).
Proof. intros H. by rewrite printColoredLog_parseLine, H. Qed.

Lemma text_Println (line : str) : text (Println line) = line ++ newline.
Proof.
  unfold text, Println. cbn [map concat text_of_piece]. by rewrite app_nil_r.
Qed.

(** C4: a line in which [findFieldIndices] finds fewer than six field starts
    is printed as it is, and the three state values are returned as they
    came. *)
Theorem fewer_than_six_fields_pass_through (line lastTag : str) (lastTime : Time)
    (lastOther : str) (opts : LogcatOptions) (parts : list Z) :
  findFieldIndices line 6 = Ok parts ->
  len parts < 6 ->
  printColoredLog line lastTag lastTime lastOther opts
  = Ok (Println line, (lastTag, lastTime, lastOther))
  /\ text (Println line) = line ++ newline.
Proof.
  intros Hf Hlen. split; [|apply text_Println].
  apply passthrough. by eapply parseLine_fewer.
Qed.

Lemma fewer_than_six_fields_pass_through_witness :
  findFieldIndices (lit "--------- beginning of main") 6 = Ok [0; 10; 20; 23]
  /\ printColoredLog (lit "--------- beginning of main") (lit "artd")
       (mkTime 7 0) (lit "x") defaultOptions
     = Ok (Println (lit "--------- beginning of main"), (lit "artd", mkTime 7 0, lit "x")).
Proof.
  split; [reflexivity|].
  apply (fewer_than_six_fields_pass_through (lit "--------- beginning of main")
           (lit "artd") (mkTime 7 0) (lit "x") defaultOptions [0; 10; 20; 23]).
  - reflexivity.
  - reflexivity.
Defined.



(** ** The options the renderer reads *)

(** C9: what [printColoredLog] prints and returns is fixed by the line, the
    three state values and [MaxDelta]: two option records that agree on
    [MaxDelta] and differ anywhere else give the same result. *)
Theorem only_MaxDelta_matters (line lastTag : str) (lastTime : Time) (lastOther : str)
    (opts1 opts2 : LogcatOptions) :
  MaxDelta opts1 = MaxDelta opts2 ->
  printColoredLog line lastTag lastTime lastOther opts1
  = printColoredLog line lastTag lastTime lastOther opts2.
Proof.
  intros H. rewrite !printColoredLog_parseLine.
  destruct (parseLine line) as [[p|]|]; cbn [mbind result_bind]; try reflexivity.
  unfold render, deduplicated. by rewrite H.
Qed.

Lemma only_MaxDelta_matters_witness :
  printColoredLog exampleLine (lit "artd") (mkTime (-22134342) 812000000) (lit "x")
    defaultOptions
  = printColoredLog exampleLine (lit "artd") (mkTime (-22134342) 812000000) (lit "x")
      (mkOptions [lit "ActivityManager"] (lit "artd") (lit "W") (lit "-e")
         (10 * Second) true).
Proof.
  apply (only_MaxDelta_matters exampleLine (lit "artd") (mkTime (-22134342) 812000000)
           (lit "x") defaultOptions
           (mkOptions [lit "ActivityManager"] (lit "artd") (lit "W") (lit "-e")
              (10 * Second) true)).
  reflexivity.
Defined.

(** ** Separators *)






(** ** The field extractor *)

(** C7, for a maximum field count of at least one and the space character
    as the only separator: [findFieldIndices] returns the byte offsets of
    the first [maxFields] tokens delimited by spaces: they
    come in increasing order, each is the offset of a byte that is not a
    space and that starts the line or follows a space, and when the line has
    fewer tokens every token start is returned. *)
Theorem findFieldIndices_first_tokens (line : str) (maxFields : Z) :
  1 <= maxFields ->
  exists offsets : list Z,
    findFieldIndices line maxFields = Ok offsets
    /\ offsets = take (Z.to_nat maxFields) (token_starts line)
    /\ StronglySorted Z.lt offsets
    /\ (forall i, i ∈ offsets -> token_start line i = true)
    /\ (len (token_starts line) < maxFields -> offsets = token_starts line).
Proof.
  intros HN. exists (take (Z.to_nat maxFields) (token_starts line)).
  split; [|split; [done|split; [|split]]].
  - rewrite findFieldIndices_token_starts by lia. by rewrite Z.max_r by lia.
  - apply take_sorted, token_starts_sorted.
  - intros i Hi. by apply token_starts_token_start, (elem_of_take_elem_of (Z.to_nat maxFields)).
  - intros Hlen. apply take_ge. unfold len in Hlen. lia.
Qed.

Lemma findFieldIndices_first_tokens_witness :
  exists offsets : list Z,
    findFieldIndices exampleLine 6 = Ok offsets
    /\ offsets = take 6 (token_starts exampleLine)
    /\ StronglySorted Z.lt offsets
    /\ (forall i, i ∈ offsets -> token_start exampleLine i = true)
    /\ (len (token_starts exampleLine) < 6 -> offsets = token_starts exampleLine).
Proof.
  apply (findFieldIndices_first_tokens exampleLine 6). by vm_compute.
Defined.

(** C7 does not hold for white space in general nor for a maximum below
    one: with a tab between two words the white-space tokens start at 0 and
    2 and one offset is returned; with a maximum of 0 one offset is returned
    where none is asked for; a negative maximum panics in [make]. *)
Lemma findFieldIndices_not_whitespace_tokens :
  (white_token_starts (lit "a" ++ [tab] ++ lit "b") = [0; 2]
   /\ findFieldIndices (lit "a" ++ [tab] ++ lit "b") 2 = Ok [0]
   /\ findFieldIndices (lit "a" ++ [tab] ++ lit "b") 2 <> Ok (take 2 (white_token_starts (lit "a" ++ [tab] ++ lit "b"))))
  /\ (findFieldIndices (lit "a b") 0 = Ok [0]
      /\ findFieldIndices (lit "a b") 0 <> Ok (take 0 (token_starts (lit "a b"))))
  /\ ~ (exists offsets, findFieldIndices (lit "a b") (-1) = Ok offsets).
Proof.
  repeat split; try reflexivity; try discriminate.
  intros [offsets H]. discriminate H.
Qed.

(** ** The panic *)

(** C3: the renderer can panic.  A well-formed record whose colon is its
    last byte makes [line[colonIndex+2:]] start one past the end of the
    line, and [printColoredLog] panics on it, whatever the state and the
    options. *)
Theorem colon_at_end_panics (lastTag : str) (lastTime : Time) (lastOther : str)
    (opts : LogcatOptions) :
  printColoredLog colonLastLine lastTag lastTime lastOther opts
  = Panic SliceBoundsOutOfRange.
Proof.
  apply printColoredLog_panic.
  destruct (parseLine colonLastLine) as [[p|]|] eqn:E; try (vm_compute in E; discriminate E).
  exists p. split; [done|]. split; [|done].
  vm_compute in E. injection E as <-. reflexivity.
Qed.

(** ** The tag and its padding *)

(** C6: the round trip breaks on a tag text that starts with a tab.
    [strings.TrimSpace] also trims at the front and a tab is not a separator
    for [findFieldIndices], so the padding is cut from the wrong place: the
    tag followed by its padding is not the text between the tag offset and
    the colon. *)
Theorem tab_before_tag_breaks_round_trip :
  exists p : LogLine,
    parseLine tabTagLine = Ok (Some p)
    /\ substr tabTagLine (tagIndex p) (colonIndex p) = tab :: lit "artd  "
    /\ tag p = lit "artd"
    /\ tagSpace p = lit "d  "
    /\ tag p ++ tagSpace p <> substr tabTagLine (tagIndex p) (colonIndex p).
Proof.
  destruct (parseLine tabTagLine) as [[p|]|] eqn:E; try (vm_compute in E; discriminate E).
  exists p. split; [done|]. vm_compute in E. injection E as <-.
  repeat split; try reflexivity. vm_compute. discriminate.
Qed.

(** ** Padding with spaces adds one rune per space *)










(** ** A parsed line *)

(** What [parseLine] has established when it returns a record. *)
Lemma parseLine_Some (line : str) (p : LogLine) :
  parseLine line = Ok (Some p) ->
  0 < levelIndex p < tagIndex p
  /\ tagIndex p <= colonIndex p < len line
  /\ level p = substr line (levelIndex p) (levelIndex p + 1)
  /\ LogLevelColors !! level p = Some (colorFunc p)
  /\ byte_at line (colonIndex p) = Some ":"%char
  /\ tag p = strings_TrimSpace (substr line (tagIndex p) (colonIndex p))
  /\ tagSpace p = substr line (tagIndex p + len (tag p)) (colonIndex p)
  /\ parseTimestamp line = Some (currentTime p).
Proof.
  intros Hp.
  destruct (findFieldIndices line 6) as [parts|] eqn:Hf;
    [|unfold findFieldIndices in Hf; discriminate Hf].
  destruct (len parts <? 6) eqn:Hlen.
  { apply Z.ltb_lt in Hlen. rewrite (parseLine_fewer _ _ Hf Hlen) in Hp. discriminate Hp. }
  destruct (findFieldIndices_six _ _ Hf Hlen)
    as (a0 & a1 & a2 & a3 & a4 & a5 & -> & ? & ? & ? & ? & ? & ?).
  rewrite (parseLine_six line a0 a1 a2 a3 a4 a5) in Hp by done. cbv zeta in Hp.
  destruct (LogLevelColors !! _) as [cf|] eqn:Hcf; [|discriminate Hp].
  destruct (IndexRune_spec (substr line a5 (len line)) ":") as [[Hk _]|(Hk & Hl & _)].
  { rewrite Hk in Hp. discriminate Hp. }
  rewrite len_substr in Hk by lia.
  rewrite (proj2 (Z.eqb_neq _ _)) in Hp by lia.
  destruct (parseTimestamp line) as [t|]; [|discriminate Hp].
  injection Hp as <-.
  cbn [levelIndex level colorFunc tagIndex colonIndex tag tagSpace currentTime other].
  set (k := strings_IndexRune _ _) in *.
  repeat split; try done; try lia.
  unfold byte_at. rewrite (proj2 (Z.ltb_ge _ _)) by lia.
  unfold substr in Hl. apply lookup_take_Some in Hl as [Hl _].
  rewrite lookup_drop in Hl. rewrite <- Hl. f_equal. lia.
Qed.

(** The second half of the renderer on a parsed line: the metadata and the
    state are settled before the message is sliced. *)
Lemma render_parsed (line : str) (p : LogLine) (lastTag : str) (lastTime : Time)
    (lastOther : str) (opts : LogcatOptions) :
  parseLine line = Ok (Some p) ->
  render line p lastTag lastTime lastOther opts
  = message ← slice_from line (colonIndex p + 2);
    Ok ([Plain (if deduplicated lastTag lastTime opts p
                then Sprintf_star_minus_v (levelIndex p)
                       (lit "+" ++ Duration_String (Time_Sub (currentTime p) lastTime))
                else substr line 0 (levelIndex p));
         Colored (colorFunc p) (level p); Plain (lit " ");
         Colored TagColor (tag p); Plain (tagSpace p); Plain (lit " : ");
         Colored (colorFunc p) message; Plain newline],
        (tag p,
         if deduplicated lastTag lastTime opts p then lastTime else currentTime p,
         if deduplicated lastTag lastTime opts p then lastOther else other p)).
Proof.
  intros Hp. apply parseLine_Some in Hp as (Hl & Hc & _).
  unfold render, slice_to. rewrite slice_Ok by lia.
  by destruct (deduplicated _ _ _ _).
Qed.


(** ** Deduplication *)





(** ** The example of the source *)

(** C8: from the empty state the example line is printed with its own
    metadata text, [04-19 19:34:18.813  5587  5708 ] with the trailing space,
    and the returned tag is [artd]; the same record one millisecond later,
    under a threshold whose seconds exceed those of one millisecond, is
    printed with [+1ms] and spaces up to the same 31 bytes, and the state
    stays as it was. *)
Theorem example_session (opts : LogcatOptions) :
  PrimFloat.ltb (Duration_Seconds Millisecond) (Duration_Seconds (MaxDelta opts)) = true ->
  exists rest1 rest2,
    printColoredLog exampleLine [] zeroTime [] opts
    = Ok (Plain (lit "04-19 19:34:18.813  5587  5708 ") :: rest1,
          (lit "artd", exampleTime, exampleOther))
    /\ printColoredLog exampleLineLater (lit "artd") exampleTime exampleOther opts
       = Ok (Plain (lit "+1ms" ++ replicate 27 " "%char) :: rest2,
             (lit "artd", exampleTime, exampleOther))
    /\ len (lit "+1ms" ++ replicate 27 " "%char)
       = len (lit "04-19 19:34:18.813  5587  5708 ").
Proof.
  intros Hlt.
  assert (Hp1 : exists p, parseLine exampleLine = Ok (Some p)
                  /\ tag p = lit "artd" /\ currentTime p = exampleTime
                  /\ other p = exampleOther /\ levelIndex p = 31
                  /\ colonIndex p = 41).
  { eexists. split; [vm_compute; reflexivity|]. repeat split. }
  assert (Hp2 : exists p, parseLine exampleLineLater = Ok (Some p)
                  /\ tag p = lit "artd"
                  /\ currentTime p = mkTime (-22134342) 814000000
                  /\ levelIndex p = 31 /\ colonIndex p = 41).
  { eexists. split; [vm_compute; reflexivity|]. repeat split. }
  destruct Hp1 as (p1 & Hp1 & Htag1 & Htime1 & Hother1 & Hlevel1 & Hcolon1).
  destruct Hp2 as (p2 & Hp2 & Htag2 & Htime2 & Hlevel2 & Hcolon2).
  assert (Hd1 : deduplicated [] zeroTime opts p1 = false).
  { unfold deduplicated. rewrite Htag1. by rewrite bool_decide_eq_false_2. }
  assert (Hd2 : deduplicated (lit "artd") exampleTime opts p2 = true).
  { unfold deduplicated. rewrite Htag2, Htime2.
    rewrite bool_decide_eq_true_2 by done.
    change (Time_Sub (mkTime (-22134342) 814000000) exampleTime) with Millisecond.
    by rewrite Hlt. }
  eexists _, _. split; [|split].
  - rewrite printColoredLog_parseLine, Hp1. cbn [mbind result_bind].
    rewrite (render_parsed _ _ _ _ _ _ Hp1), Hd1, Hcolon1, Hlevel1, Htag1, Htime1, Hother1.
    change (slice_from exampleLine (41 + 2))
      with (Ok (lit "GetBestInfo no usable artifacts")).
    cbn [mbind result_bind]. reflexivity.
  - rewrite printColoredLog_parseLine, Hp2. cbn [mbind result_bind].
    rewrite (render_parsed _ _ _ _ _ _ Hp2), Hd2, Hcolon2, Hlevel2, Htag2, Htime2.
    change (slice_from exampleLineLater (41 + 2))
      with (Ok (lit "GetBestInfo no usable artifacts")).
    cbn [mbind result_bind].
    change (Time_Sub (mkTime (-22134342) 814000000) exampleTime) with Millisecond.
    reflexivity.
  - reflexivity.
Qed.

Lemma example_session_witness :
  exists rest1 rest2,
    printColoredLog exampleLine [] zeroTime [] defaultOptions
    = Ok (Plain (lit "04-19 19:34:18.813  5587  5708 ") :: rest1,
          (lit "artd", exampleTime, exampleOther))
    /\ printColoredLog exampleLineLater (lit "artd") exampleTime exampleOther
         defaultOptions
       = Ok (Plain (lit "+1ms" ++ replicate 27 " "%char) :: rest2,
             (lit "artd", exampleTime, exampleOther))
    /\ len (lit "+1ms" ++ replicate 27 " "%char)
       = len (lit "04-19 19:34:18.813  5587  5708 ").
Proof.
  apply (example_session defaultOptions). vm_compute. reflexivity.
Defined.

(** ** Side conditions made explicit *)

(** A width above [1e6] is refused by the formatter: nothing is padded and
    the text starts with [%!(BADWIDTH)]. *)
Lemma Sprintf_star_minus_v_bad_width (wid : Z) (s : str) :
  1000000 < wid -> Sprintf_star_minus_v wid s = lit "%!(BADWIDTH)" ++ s.
Proof.
  intros H. unfold Sprintf_star_minus_v. by rewrite (proj2 (Z.gtb_lt _ _) H).
Qed.

(** The threshold test compares [float64] seconds: one millisecond is below
    ten seconds, and two durations of about 231 days that differ by one
    nanosecond have the same seconds. *)
Example Seconds_comparisons :
  PrimFloat.ltb (Duration_Seconds Millisecond) (Duration_Seconds (10 * Second)) = true
  /\ PrimFloat.ltb (Duration_Seconds (20000000 * Second))
                   (Duration_Seconds (20000000 * Second + 1)) = false.
Proof. split; vm_compute; reflexivity. Qed.

(** [strings.TrimSpace] keeps the front of a text that starts with an ASCII
    byte other than white space. *)
Lemma TrimSpace_prefix (s : str) :
  (forall c, head s = Some c -> byteZ c < utf8.runeSelf /\ asciiSpace c = false) ->
  exists n : nat, strings_TrimSpace s = take n s.
Proof.
  intros Hhead. unfold strings_TrimSpace.
  assert (Hleft : TrimSpace_left 0 s = inl 0).
  { destruct s as [|c rest]; [done|]. destruct (Hhead c eq_refl) as [Hc Hsp].
    cbn [TrimSpace_left]. rewrite Z.geb_leb, (proj2 (Z.leb_gt _ _) Hc), Hsp. done. }
  rewrite Hleft.
  assert (Hsub : forall (t : str) hi, substr t 0 hi = take (Z.to_nat hi) t).
  { intros t hi. unfold substr. by rewrite Z.sub_0_r. }
  destruct (TrimSpace_right _ _) as [stop|stop].
  - exists (Z.to_nat stop). apply Hsub.
  - unfold strings_TrimRightFunc. rewrite !Hsub, take_take. by eexists.
Qed.

Lemma substr_drop (l : str) (a k hi : Z) :
  0 <= a -> 0 <= k -> a + k <= hi ->
  substr l (a + k) hi = drop (Z.to_nat k) (substr l a hi).
Proof.
  intros Ha Hk Hhi. unfold substr.
  replace (Z.to_nat (hi - a)) with (Z.to_nat k + Z.to_nat (hi - (a + k)))%nat by lia.
  rewrite <- take_drop_commute, drop_drop. f_equal. f_equal. lia.
Qed.

(** Where the tag text starts with an ASCII byte that is not white space,
    the tag followed by its padding is the text between the tag offset and
    the colon. *)
Lemma tag_round_trip (line : str) (p : LogLine) (c : ascii) :
  parseLine line = Ok (Some p) ->
  byte_at line (tagIndex p) = Some c ->
  byteZ c < utf8.runeSelf ->
  asciiSpace c = false ->
  tag p ++ tagSpace p = substr line (tagIndex p) (colonIndex p).
Proof.
  intros Hp Hc Hascii Hsp.
  apply parseLine_Some in Hp as (Hl & Hcolon & _ & _ & _ & Htag & Hspace & _).
  assert (Hs : len (substr line (tagIndex p) (colonIndex p)) = colonIndex p - tagIndex p)
    by (apply len_substr; lia).
  assert (Hhead : forall c', head (substr line (tagIndex p) (colonIndex p)) = Some c' ->
                             c' = c).
  { intros c' Hh. unfold substr in Hh.
    destruct (Z.to_nat (colonIndex p - tagIndex p)) as [|m] eqn:Hm; [by rewrite take_0 in Hh|].
    unfold byte_at in Hc. rewrite (proj2 (Z.ltb_ge _ _)) in Hc by lia.
    apply take_drop_middle in Hc. rewrite <- Hc in Hh.
    rewrite drop_app_length' in Hh by (rewrite length_take; unfold len in *; lia).
    cbn in Hh. by injection Hh as <-. }
  remember (substr line (tagIndex p) (colonIndex p)) as s eqn:Es.
  destruct (TrimSpace_prefix s) as [n Hn].
  { intros c' Hh. by rewrite (Hhead c' Hh). }
  rewrite Hspace, Htag, Hn.
  assert (Hlen : len (take n s) <= len s).
  { unfold len. rewrite length_take. lia. }
  rewrite substr_drop by (pose proof (len_nonneg (take n s)); lia).
  rewrite <- Es. unfold len. rewrite Nat2Z.id, length_take.
  destruct (Nat.min_spec n (length s)) as [[_ ->]|[Hge ->]].
  - apply take_drop.
  - rewrite take_ge by lia. rewrite drop_all. apply app_nil_r.
Qed.

(** * More of the program *)

(** ** [findFieldIndices]: growth, early stop, blank lines *)

Lemma starts_from_app (l e : str) :
  forall (prevSep : bool) (i : Z),
    starts_from prevSep i (l ++ e)
    = starts_from prevSep i l
      ++ starts_from (match last l with Some c => is_sep c | None => prevSep end)
           (i + len l) e.
Proof.
  induction l as [|c l IH]; intros prevSep i.
  - cbn [app starts_from last]. by rewrite Z.add_0_r.
  - cbn [app starts_from]. rewrite IH, len_cons, <- app_assoc.
    replace (i + 1 + len l) with (i + (len l + 1)) by lia.
    do 3 f_equal. destruct l as [|c' l']; [done|].
    change (last (c :: c' :: l')) with (last (c' :: l')).
    destruct (last (c' :: l')) eqn:E; [done|]. by apply last_None in E.
Qed.

(** X1: asking for more fields only extends the answer: for [1 <= n <= m]
    the offsets found for [n] are the first [n] of those found for [m]. *)
Theorem findFieldIndices_prefix (line : str) (n m : Z) :
  1 <= n -> n <= m ->
  exists offsets : list Z,
    findFieldIndices line m = Ok offsets
    /\ findFieldIndices line n = Ok (take (Z.to_nat n) offsets).
Proof.
  intros Hn Hm. eexists. split.
  - apply findFieldIndices_token_starts. lia.
  - rewrite findFieldIndices_token_starts by lia.
    rewrite !Z.max_r by lia. rewrite take_take. do 2 f_equal. lia.
Qed.

Lemma findFieldIndices_prefix_witness :
  exists offsets : list Z,
    findFieldIndices exampleLine 6 = Ok offsets
    /\ findFieldIndices exampleLine 2 = Ok (take 2 offsets).
Proof.
  apply (findFieldIndices_prefix exampleLine 2 6); by vm_compute.
Defined.

(** X2: once [maxFields] field starts have been found the rest of the line
    is not looked at: appending any text to the line leaves the result as
    it is. *)
Theorem findFieldIndices_early_stop (line extra : str) (maxFields : Z)
    (offsets : list Z) :
  1 <= maxFields ->
  findFieldIndices line maxFields = Ok offsets ->
  len offsets = maxFields ->
  findFieldIndices (line ++ extra) maxFields = Ok offsets.
Proof.
  intros HN. rewrite !findFieldIndices_token_starts by lia.
  rewrite Z.max_r by lia. intros [= <-] Hlen. f_equal.
  unfold len in Hlen. rewrite length_take, token_starts_eq in Hlen.
  rewrite !token_starts_eq, starts_from_app.
  rewrite take_app_le by lia. done.
Qed.

Lemma findFieldIndices_early_stop_witness :
  findFieldIndices
    (lit "04-19 19:34:18.813  5587  5708 I artd" ++ lit "    : any text  at all")
    6
  = Ok [0; 6; 20; 26; 31; 33].
Proof.
  apply (findFieldIndices_early_stop (lit "04-19 19:34:18.813  5587  5708 I artd")
           (lit "    : any text  at all") 6 [0; 6; 20; 26; 31; 33]).
  - by vm_compute.
  - reflexivity.
  - reflexivity.
Defined.

Lemma starts_from_all_sep (s : str) :
  forall (prevSep : bool) (i : Z),
    Forall (fun c => c = " "%char) s -> starts_from prevSep i s = [].
Proof.
  induction s as [|c rest IH]; intros prevSep i Hall; [done|].
  inversion Hall as [|? ? -> Hrest]; subst. cbn [starts_from].
  change (is_sep " ") with true. cbn [negb andb app]. by apply IH.
Qed.

(** X3: a line made of spaces only, the empty line included, has no field
    start for any capacity [make] accepts, and [printColoredLog] prints it
    as it is and returns the state as it came. *)
Theorem blank_line_has_no_field (line lastTag : str) (lastTime : Time)
    (lastOther : str) (opts : LogcatOptions) (maxFields : Z) :
  0 <= maxFields ->
  Forall (fun c => c = " "%char) line ->
  findFieldIndices line maxFields = Ok []
  /\ printColoredLog line lastTag lastTime lastOther opts
     = Ok (Println line, (lastTag, lastTime, lastOther)).
Proof.
  intros HN Hall.
  assert (H : forall n, 0 <= n -> findFieldIndices line n = Ok []).
  { intros n Hn. rewrite findFieldIndices_token_starts, token_starts_eq by done.
    rewrite starts_from_all_sep by done. by rewrite take_nil. }
  split; [by apply H|].
  apply passthrough. apply (parseLine_fewer line []); [by apply H|done].
Qed.

Lemma blank_line_has_no_field_witness :
  findFieldIndices (lit "    ") 6 = Ok []
  /\ printColoredLog (lit "    ") (lit "artd") exampleTime exampleOther defaultOptions
     = Ok (Println (lit "    "), (lit "artd", exampleTime, exampleOther)).
Proof.
  apply (blank_line_has_no_field (lit "    ") (lit "artd") exampleTime exampleOther
           defaultOptions 6).
  - by vm_compute.
  - repeat constructor.
Defined.

(** X4: a maximum of 0 is served like a maximum of 1: the loop tests the
    count after it has stored an offset, so the first field start is
    returned all the same. *)
Theorem findFieldIndices_zero_is_one (line : str) :
  findFieldIndices line 0 = findFieldIndices line 1
  /\ (forall c rest, line = c :: rest -> c <> " "%char ->
      findFieldIndices line 0 = Ok [0]).
Proof.
  split.
  - by rewrite !findFieldIndices_token_starts by lia.
  - intros c rest -> Hc. rewrite findFieldIndices_token_starts, token_starts_eq by lia.
    cbn [starts_from]. unfold is_sep at 1.
    rewrite (proj2 (Ascii.eqb_neq _ _) Hc). reflexivity.
Qed.

(** ** [buildAdbCommand] *)

Lemma fold_left_filters (filters : list str) :
  forall args : list str,
    fold_left (fun args filter => args ++ [lit "-s"; filter]) filters args
    = args ++ concat (map (fun filter => [lit "-s"; filter]) filters).
Proof.
  induction filters as [|f filters IH]; intros args; cbn [fold_left map concat].
  - by rewrite app_nil_r.
  - rewrite IH, <- app_assoc. reflexivity.
Qed.

(** X5: the command line is [adb], one device selector ([-d], [-e], or
    [-s] followed by the device value, whatever it is, the empty string
    included), [logcat -v threadtime], the filter spec [Tag:Level] when both
    are non-empty, and then every filter string, in order, each preceded by
    [-s]. *)
Theorem buildAdbCommand_shape (opts : LogcatOptions) :
  exists selector spec : list str,
    buildAdbCommand opts
    = [lit "adb"] ++ selector ++ [lit "logcat"; lit "-v"; lit "threadtime"] ++ spec
      ++ concat (map (fun filter => [lit "-s"; filter]) (Filters opts))
    /\ (Device opts = lit "-d" /\ selector = [lit "-d"]
        \/ Device opts = lit "-e" /\ selector = [lit "-e"]
        \/ Device opts <> lit "-d" /\ Device opts <> lit "-e"
           /\ selector = [lit "-s"; Device opts])
    /\ (Tag opts <> [] /\ Level opts <> []
        /\ spec = [Tag opts ++ lit ":" ++ Level opts]
        \/ (Tag opts = [] \/ Level opts = []) /\ spec = []).
Proof.
  unfold buildAdbCommand. cbv zeta. rewrite fold_left_filters.
  set (tail := concat _).
  exists (if bool_decide (Device opts = lit "-d") then [lit "-d"]
          else if bool_decide (Device opts = lit "-e") then [lit "-e"]
          else [lit "-s"; Device opts]),
         (if negb (bool_decide (Tag opts = [])) && negb (bool_decide (Level opts = []))
          then [Tag opts ++ lit ":" ++ Level opts] else []).
  split; [|split].
  - destruct (bool_decide (Device opts = lit "-d"));
      [|destruct (bool_decide (Device opts = lit "-e"))];
      destruct (negb _ && negb _);
      rewrite <- ?app_assoc; reflexivity.
  - destruct (decide (Device opts = lit "-d")) as [Hd|Hd].
    { left. by rewrite bool_decide_eq_true_2. }
    rewrite (bool_decide_eq_false_2 _ Hd).
    destruct (decide (Device opts = lit "-e")) as [He|He].
    { right; left. by rewrite bool_decide_eq_true_2. }
    rewrite (bool_decide_eq_false_2 _ He). by right; right.
  - destruct (decide (Tag opts = [])) as [Ht|Ht].
    { right. rewrite (bool_decide_eq_true_2 _ Ht). split; [by left|done]. }
    destruct (decide (Level opts = [])) as [Hl|Hl].
    { right. rewrite (bool_decide_eq_true_2 _ Hl), andb_false_r. split; [by right|done]. }
    left. by rewrite !bool_decide_eq_false_2.
Qed.

(** X6: a tag filter without a level, or a level without a tag, is dropped
    without a word: the command is the one built with neither. *)
Theorem buildAdbCommand_needs_tag_and_level (opts : LogcatOptions) :
  Tag opts = [] \/ Level opts = [] ->
  buildAdbCommand opts
  = buildAdbCommand
      (mkOptions (Filters opts) [] [] (Device opts) (MaxDelta opts) (KeepGoing opts)).
Proof.
  intros H. unfold buildAdbCommand.
  cbn [Filters Tag Level Device MaxDelta KeepGoing]. cbv zeta.
  assert (Hspec : negb (bool_decide (Tag opts = []))
                  && negb (bool_decide (Level opts = [])) = false).
  { destruct H as [H|H]; rewrite (bool_decide_eq_true_2 _ H); [done|apply andb_false_r]. }
  rewrite Hspec. rewrite (bool_decide_eq_true_2 (@nil ascii = []) eq_refl).
  reflexivity.
Qed.

Lemma buildAdbCommand_needs_tag_and_level_witness :
  buildAdbCommand (mkOptions [] (lit "ActivityManager") [] (lit "-e") (10 * Second) false)
  = [lit "adb"; lit "-e"; lit "logcat"; lit "-v"; lit "threadtime"].
Proof.
  rewrite (buildAdbCommand_needs_tag_and_level
             (mkOptions [] (lit "ActivityManager") [] (lit "-e") (10 * Second) false)).
  - reflexivity.
  - right. reflexivity.
Defined.

(** ** The argument filter of [parseArgs] *)

Lemma filterCmdArgs_loop_keptArgs (todo : list str) :
  forall (done_ filtered : list str) (device : str),
    filterCmdArgs_loop (done_ ++ todo) (len done_) todo filtered device
    = Ok (filtered ++ (keptArgs todo).1,
          if (keptArgs todo).2 then lit "-d" else device).
Proof.
  induction todo as [|arg todo IH]; intros done_ filtered device.
  - cbn. by rewrite app_nil_r.
  - cbn [filterCmdArgs_loop keptArgs].
    assert (IH' : forall filtered device,
               filterCmdArgs_loop (done_ ++ arg :: todo) (len done_ + 1) todo filtered
                 device
               = Ok (filtered ++ (keptArgs todo).1,
                     if (keptArgs todo).2 then lit "-d" else device)).
    { intros f d. specialize (IH (done_ ++ [arg]) f d).
      rewrite <- app_assoc, len_app in IH. exact IH. }
    assert (Hlen : len (done_ ++ arg :: todo) = len done_ + 1 + len todo).
    { rewrite len_app, len_cons. lia. }
    rewrite !IH', Hlen.
    destruct (keptArgs todo) as [kept dropped]. cbn [fst snd].
    destruct (isDashD arg); cbn [andb]; [|by rewrite <- app_assoc].
    destruct todo as [|nextArg todo'].
    + change (len (@nil str)) with 0. rewrite Z.add_0_r, Z.eqb_refl.
      cbn [fst snd]. by destruct dropped.
    + pose proof (len_nonneg todo') as Hpos. rewrite len_cons.
      rewrite (proj2 (Z.eqb_neq _ _)) by lia.
      rewrite (proj2 (Z.ltb_lt _ _)) by lia.
      replace (Z.to_nat (len done_ + 1)) with (length done_ + 1)%nat by (unfold len; lia).
      rewrite lookup_app_r by lia.
      replace (length done_ + 1 - length done_)%nat with 1%nat by lia.
      cbn [lookup list_lookup].
      destruct (strings_HasPrefix nextArg (lit "-")); cbn [fst snd];
        [by destruct dropped|by rewrite <- app_assoc].
Qed.

(** The loop never runs off the argument list, and comes to what
    [keptArgs] computes by looking one argument ahead. *)
Lemma filterCmdArgs_keptArgs (args : list str) :
  filterCmdArgs args
  = Ok ((keptArgs args).1, if (keptArgs args).2 then lit "-d" else []).
Proof.
  unfold filterCmdArgs. apply (filterCmdArgs_loop_keptArgs args [] [] []).
Qed.

Lemma HasPrefix_spec (s prefix : str) :
  strings_HasPrefix s prefix = true <-> exists rest, s = prefix ++ rest.
Proof.
  unfold strings_HasPrefix, substr. rewrite Z.sub_0_r.
  change (drop (Z.to_nat 0) s) with s.
  unfold len. rewrite Nat2Z.id. split.
  - intros H. apply andb_prop in H as [_ H]. apply bool_decide_eq_true_1 in H.
    exists (drop (length prefix) s). rewrite <- H at 1. by rewrite take_drop.
  - intros [rest ->]. rewrite take_app_length, length_app.
    apply andb_true_intro. split; [apply Z.geb_le; lia|by apply bool_decide_eq_true_2].
Qed.

Lemma isDashD_HasPrefix (arg : str) :
  isDashD arg = true -> strings_HasPrefix arg (lit "-") = true.
Proof.
  unfold isDashD. intros H. apply HasPrefix_spec.
  repeat (apply orb_prop in H as [H|H]).
  - apply bool_decide_eq_true_1 in H as ->. by eexists.
  - apply bool_decide_eq_true_1 in H as ->. by eexists.
  - apply HasPrefix_spec in H as [rest ->]. by eexists.
  - apply HasPrefix_spec in H as [rest ->]. by eexists.
Qed.

Lemma isDashD_serial (serial : str) : isDashD (lit "-d=" ++ serial) = true.
Proof.
  unfold isDashD.
  assert (H : strings_HasPrefix (lit "-d=" ++ serial) (lit "-d=") = true)
    by (apply HasPrefix_spec; by eexists).
  rewrite H. by rewrite orb_true_r.
Qed.

Lemma keptArgs_cons_kept (arg : str) (rest : list str) :
  isDashD arg = false -> (keptArgs (arg :: rest)).1 = arg :: (keptArgs rest).1.
Proof.
  intros H. cbn [keptArgs]. destruct (keptArgs rest). by rewrite H.
Qed.

Lemma keptArgs_dash_d_has_value (args : list str) :
  dash_d_has_value (keptArgs args).1.
Proof.
  induction args as [|arg rest IH]; intros pre x post Heq Hx.
  - cbn in Heq. by destruct pre.
  - cbn [keptArgs] in Heq. destruct (keptArgs rest) as [kept dropped] eqn:Hk.
    cbn [fst] in IH.
    destruct (isDashD arg && _) eqn:Hdrop; cbn [fst] in Heq.
    + by apply (IH pre x post).
    + destruct pre as [|a pre']; cbn [app] in Heq; injection Heq as <- Heq.
      * subst post. rewrite Hx in Hdrop. cbn [andb] in Hdrop.
        destruct rest as [|nextArg rest']; [done|].
        assert (Hn : isDashD nextArg = false).
        { destruct (isDashD nextArg) eqn:E; [|done].
          apply isDashD_HasPrefix in E. congruence. }
        pose proof (keptArgs_cons_kept nextArg rest' Hn) as Hhead.
        rewrite Hk in Hhead. cbn [fst] in Hhead. by eexists _, _.
      * by apply (IH pre' x post).
Qed.

(** X7: after the filter no argument of the forms [-d], [--d], [-d=...],
    [--d=...] is followed by an argument that starts with [-], and none is
    the last one: [fs.Parse] cannot take a flag for the value of [-d].  The
    loop itself never indexes past the arguments. *)
Theorem filterCmdArgs_dash_d_has_value (args : list str) :
  exists filtered device,
    filterCmdArgs args = Ok (filtered, device)
    /\ (forall pre arg post,
          filtered = pre ++ arg :: post ->
          isDashD arg = true ->
          exists nextArg post',
            post = nextArg :: post' /\ strings_HasPrefix nextArg (lit "-") = false).
Proof.
  eexists _, _. split; [apply filterCmdArgs_keptArgs|].
  apply keptArgs_dash_d_has_value.
Qed.

Lemma keptArgs_sublist (args : list str) :
  sublist (keptArgs args).1 args
  /\ filter (fun arg => isDashD arg = false) (keptArgs args).1
     = filter (fun arg => isDashD arg = false) args.
Proof.
  induction args as [|arg rest [IH1 IH2]]; [split; [constructor|done]|].
  cbn [keptArgs]. destruct (keptArgs rest) as [kept dropped]. cbn [fst] in *.
  destruct (isDashD arg && _) eqn:Hdrop; cbn [fst].
  - split; [by apply sublist_cons|].
    apply andb_prop in Hdrop as [Hd _].
    rewrite (filter_cons_False _ arg rest); [done|]. by rewrite Hd.
  - split; [by apply sublist_skip|].
    rewrite !filter_cons. by rewrite IH2.
Qed.

(** X8: the filter only removes arguments of the [-d] forms: what it hands
    to [fs.Parse] is a subsequence of the arguments, in their order, and
    every other argument is still there. *)
Theorem filterCmdArgs_keeps_the_rest (args : list str) :
  exists filtered device,
    filterCmdArgs args = Ok (filtered, device)
    /\ sublist filtered args
    /\ filter (fun arg => isDashD arg = false) filtered
       = filter (fun arg => isDashD arg = false) args.
Proof.
  eexists _, _. split; [apply filterCmdArgs_keptArgs|]. apply keptArgs_sublist.
Qed.

Lemma keptArgs_dropped (args : list str) :
  (length (keptArgs args).1 <= length args)%nat
  /\ ((keptArgs args).2 = true -> (length (keptArgs args).1 < length args)%nat)
  /\ ((keptArgs args).2 = false -> (keptArgs args).1 = args).
Proof.
  induction args as [|arg rest (IH1 & IH2 & IH3)]; [by cbn|].
  cbn [keptArgs]. destruct (keptArgs rest) as [kept dropped]. cbn [fst snd] in *.
  destruct (isDashD arg && _); cbn [fst snd length].
  - split; [lia|]. split; [lia|done].
  - split; [lia|]. split.
    + intros H. specialize (IH2 H). lia.
    + intros H. by rewrite IH3.
Qed.

(** X9: the device is set to [-d] exactly when the filter has removed an
    argument; when nothing is removed the device stays empty and the
    arguments go to [fs.Parse] as they are. *)
Theorem filterCmdArgs_device (args : list str) :
  exists filtered device,
    filterCmdArgs args = Ok (filtered, device)
    /\ (device = lit "-d" /\ (length filtered < length args)%nat
        \/ device = [] /\ filtered = args).
Proof.
  eexists _, _. split; [apply filterCmdArgs_keptArgs|].
  destruct (keptArgs_dropped args) as (_ & H2 & H3).
  destruct (keptArgs args).2.
  - left. split; [done|by apply H2].
  - right. split; [done|by apply H3].
Qed.

Lemma keptArgs_fixed (args : list str) :
  dash_d_has_value args -> keptArgs args = (args, false).
Proof.
  induction args as [|arg rest IH]; intros Hinv; [done|].
  cbn [keptArgs]. rewrite IH.
  - destruct (isDashD arg) eqn:Hd; [|done]. cbn [andb].
    destruct (Hinv [] arg rest eq_refl Hd) as (nextArg & post' & -> & Hn).
    by rewrite Hn.
  - intros pre x post -> Hx. by apply (Hinv (arg :: pre) x post).
Qed.

(** X10: filtering twice changes nothing more: on its own output the filter
    removes no argument and sets no device. *)
Theorem filterCmdArgs_idempotent (args filtered : list str) (device : str) :
  filterCmdArgs args = Ok (filtered, device) ->
  filterCmdArgs filtered = Ok (filtered, []).
Proof.
  rewrite !filterCmdArgs_keptArgs. intros [= <- _].
  by rewrite (keptArgs_fixed _ (keptArgs_dash_d_has_value args)).
Qed.

Lemma filterCmdArgs_idempotent_witness :
  filterCmdArgs [lit "-d"; lit "emulator-5554"; lit "-k"] 
  = Ok ([lit "-d"; lit "emulator-5554"; lit "-k"], []).
Proof.
  apply (filterCmdArgs_idempotent
           [lit "-d"; lit "-d"; lit "emulator-5554"; lit "-d=x"; lit "-k"; lit "--d"]
           [lit "-d"; lit "emulator-5554"; lit "-k"] (lit "-d")).
  reflexivity.
Defined.

Lemma keptArgs_last_dash_d (pre : list str) (arg : str) :
  isDashD arg = true ->
  (keptArgs (pre ++ [arg])).2 = true /\ sublist (keptArgs (pre ++ [arg])).1 pre.
Proof.
  intros Hd. induction pre as [|a pre [IH1 IH2]].
  - cbn. rewrite Hd. cbn. split; [done|constructor].
  - cbn [app keptArgs]. destruct (keptArgs (pre ++ [arg])) as [kept dropped].
    cbn [fst snd] in *. subst dropped.
    destruct (isDashD a && _); cbn [fst snd].
    + split; [done|by apply sublist_cons].
    + split; [done|by apply sublist_skip].
Qed.

(** X11: a serial number given as [-d=SERIAL] in last position is lost: the
    argument is removed like a bare [-d], the device becomes [-d], and what
    goes to [fs.Parse] is made of the arguments before it. *)
Theorem filterCmdArgs_last_serial_lost (pre : list str) (serial : str) :
  exists filtered,
    filterCmdArgs (pre ++ [lit "-d=" ++ serial]) = Ok (filtered, lit "-d")
    /\ sublist filtered pre.
Proof.
  destruct (keptArgs_last_dash_d pre (lit "-d=" ++ serial) (isDashD_serial serial))
    as [H1 H2].
  eexists. split; [|exact H2].
  rewrite filterCmdArgs_keptArgs. by rewrite H1.
Qed.

(** ** The scanning loop of [main] *)

Lemma scanLoop_app (before after : list str) (opts : LogcatOptions) :
  forall (lastTag : str) (lastTime : Time) (lastOther : str) (stdout : list piece),
    scanLoop (before ++ after) lastTag lastTime lastOther opts stdout
    = match scanLoop before lastTag lastTime lastOther opts stdout with
      | (stdout', Ok (lastTag', lastTime', lastOther')) =>
        scanLoop after lastTag' lastTime' lastOther' opts stdout'
      | (stdout', Panic q) => (stdout', Panic q)
      end.
Proof.
  induction before as [|line before IH]; intros lastTag lastTime lastOther stdout.
  - reflexivity.
  - cbn [app scanLoop].
    destruct (printColoredLog line lastTag lastTime lastOther opts)
      as [[out [[lastTag' lastTime'] lastOther']]|q]; [apply IH|reflexivity].
Qed.

Lemma scanLoop_stdout (lines : list str) (opts : LogcatOptions) :
  forall (lastTag : str) (lastTime : Time) (lastOther : str) (stdout : list piece),
    exists more,
      (scanLoop lines lastTag lastTime lastOther opts stdout).1 = stdout ++ more.
Proof.
  induction lines as [|line lines IH]; intros lastTag lastTime lastOther stdout.
  - exists []. cbn. by rewrite app_nil_r.
  - cbn [scanLoop].
    destruct (printColoredLog line lastTag lastTime lastOther opts)
      as [[out [[lastTag' lastTime'] lastOther']]|q].
    + destruct (IH lastTag' lastTime' lastOther' (stdout ++ out)) as [more ->].
      exists (out ++ more). by rewrite app_assoc.
    + exists []. cbn. by rewrite app_nil_r.
Qed.

(** X12: a stream in which no line parses as a record (a banner, the output
    of another tool) goes through a session untouched: every line is printed
    as it is, followed by a line feed, and the state at the end is the
    state at the start. *)
Theorem session_pass_through (lines : list str) (opts : LogcatOptions) :
  Forall (fun line => parseLine line = Ok None) lines ->
  session lines opts = (concat (map Println lines), Ok ([], zeroTime, []))
  /\ text (concat (map Println lines))
     = concat (map (fun line => line ++ newline) lines).
Proof.
  intros Hall. split.
  - unfold session.
    assert (H : forall stdout,
               scanLoop lines [] zeroTime [] opts stdout
               = (stdout ++ concat (map Println lines), Ok ([], zeroTime, []))).
    { induction Hall as [|line lines Hline Hall IH]; intros stdout.
      - cbn. by rewrite app_nil_r.
      - cbn [scanLoop map concat]. rewrite (passthrough _ _ _ _ _ Hline), IH.
        by rewrite app_assoc. }
    apply (H []).
  - unfold text. clear Hall. induction lines as [|line lines IH]; [done|].
    cbn [map concat]. rewrite map_app, concat_app, IH.
    f_equal; apply text_Println.
Qed.

Lemma session_pass_through_witness :
  session [lit "--------- beginning of main"; lit ""; lit "* daemon started *"]
    defaultOptions
  = (concat (map Println [lit "--------- beginning of main"; lit "";
                          lit "* daemon started *"]),
     Ok ([], zeroTime, [])).
Proof.
  apply (session_pass_through
           [lit "--------- beginning of main"; lit ""; lit "* daemon started *"]
           defaultOptions).
  repeat constructor.
Defined.

(** X13: a record that parses and ends with its colon stops the session with
    a panic: what the lines before it printed stays printed, and no line
    after it is printed. *)
Theorem session_stops_at_panic (before after : list str) (line : str)
    (opts : LogcatOptions) (p : LogLine) (stdout : list piece) (st : str * Time * str) :
  session before opts = (stdout, Ok st) ->
  parseLine line = Ok (Some p) ->
  colonIndex p = len line - 1 ->
  session (before ++ line :: after) opts = (stdout, Panic SliceBoundsOutOfRange).
Proof.
  unfold session. intros Hbefore Hp Hcolon.
  rewrite scanLoop_app, Hbefore. destruct st as [[lastTag lastTime] lastOther].
  cbn [scanLoop].
  assert (H : printColoredLog line lastTag lastTime lastOther opts
              = Panic SliceBoundsOutOfRange).
  { apply printColoredLog_panic. by exists p. }
  by rewrite H.
Qed.

Lemma session_stops_at_panic_witness :
  session ([lit "--------- beginning of main"] ++ colonLastLine :: [exampleLine])
    defaultOptions
  = (Println (lit "--------- beginning of main"), Panic SliceBoundsOutOfRange).
Proof.
  let p := eval vm_compute in (parseLine colonLastLine) in
  lazymatch p with
  | Ok (Some ?p) =>
    apply (session_stops_at_panic [lit "--------- beginning of main"] [exampleLine]
             colonLastLine defaultOptions p
             (Println (lit "--------- beginning of main")) ([], zeroTime, []))
  end.
  - reflexivity.
  - vm_compute. reflexivity.
  - reflexivity.
Defined.

(** X14: lines are handled one at a time: what a session has printed for
    the first lines of a stream is not changed by the lines that follow, it
    is only extended. *)
Theorem session_output_grows (before after : list str) (opts : LogcatOptions) :
  exists more,
    (session (before ++ after) opts).1 = (session before opts).1 ++ more.
Proof.
  unfold session. rewrite scanLoop_app.
  destruct (scanLoop before [] zeroTime [] opts []) as [stdout [[[t tm] o]|q]];
    cbn [fst].
  - apply scanLoop_stdout.
  - exists []. by rewrite app_nil_r.
Qed.

(** ** What a record looks like when it is printed *)

Lemma levelColours_lookup (l : str) (c : colorFn) :
  LogLevelColors !! l = Some c -> (l, c) ∈ levelColours.
Proof.
  rewrite LogLevelColors_lookup. unfold levelColours.
  repeat (case_bool_decide; [intros [= <-]; subst l; repeat constructor|]).
  done.
Qed.

Lemma substr_app (s : str) (a b c : Z) :
  0 <= a <= b -> b <= c ->
  substr s a b ++ substr s b c = substr s a c.
Proof.
  intros Hab Hbc. unfold substr.
  replace (Z.to_nat b) with (Z.to_nat a + Z.to_nat (b - a))%nat by lia.
  rewrite <- drop_drop.
  replace (Z.to_nat (c - a)) with (Z.to_nat (b - a) + Z.to_nat (c - b))%nat by lia.
  by rewrite take_take_drop.
Qed.

Lemma elem_of_substr (s : str) (a b : Z) (x : ascii) : x ∈ substr s a b -> x ∈ s.
Proof.
  unfold substr. intros H. apply elem_of_take_elem_of in H.
  apply list_elem_of_lookup in H as [i H]. rewrite lookup_drop in H.
  by eapply list_elem_of_lookup_2.
Qed.

Lemma elem_of_TrimRightFunc (s : str) (f : Z -> bool) (x : ascii) :
  x ∈ strings_TrimRightFunc s f -> x ∈ s.
Proof. unfold strings_TrimRightFunc. apply elem_of_substr. Qed.

Lemma elem_of_TrimLeftFunc (s : str) (f : Z -> bool) (x : ascii) :
  x ∈ strings_TrimLeftFunc s f -> x ∈ s.
Proof.
  unfold strings_TrimLeftFunc. destruct (_ =? -1).
  - by intros H%elem_of_nil.
  - apply elem_of_substr.
Qed.

(** Trimming only removes bytes. *)
Lemma elem_of_TrimSpace (s : str) (x : ascii) : x ∈ strings_TrimSpace s -> x ∈ s.
Proof.
  unfold strings_TrimSpace, strings_TrimFunc.
  destruct (TrimSpace_left 0 s) as [start|start].
  - destruct (TrimSpace_right _ _) as [stop|stop].
    + apply elem_of_substr.
    + intros H%elem_of_TrimRightFunc. by apply elem_of_substr in H.
  - intros H%elem_of_TrimRightFunc%elem_of_TrimLeftFunc. by apply elem_of_substr in H.
Qed.

(** The text between the tag offset and the colon has no colon. *)
Lemma parseLine_first_colon (line : str) (p : LogLine) :
  parseLine line = Ok (Some p) ->
  ":"%char ∉ substr line (tagIndex p) (colonIndex p).
Proof.
  intros Hp.
  destruct (findFieldIndices line 6) as [parts|] eqn:Hf;
    [|unfold findFieldIndices in Hf; discriminate Hf].
  destruct (len parts <? 6) eqn:Hlen.
  { apply Z.ltb_lt in Hlen. rewrite (parseLine_fewer _ _ Hf Hlen) in Hp. discriminate Hp. }
  destruct (findFieldIndices_six _ _ Hf Hlen)
    as (a0 & a1 & a2 & a3 & a4 & a5 & -> & ? & ? & ? & ? & ? & ?).
  rewrite (parseLine_six line a0 a1 a2 a3 a4 a5) in Hp by done. cbv zeta in Hp.
  destruct (LogLevelColors !! _) as [cf|] eqn:Hcf; [|discriminate Hp].
  destruct (IndexRune_spec (substr line a5 (len line)) ":") as [[Hk _]|(Hk & _ & Hno)].
  { rewrite Hk in Hp. discriminate Hp. }
  rewrite len_substr in Hk by lia.
  rewrite (proj2 (Z.eqb_neq _ _)) in Hp by lia.
  destruct (parseTimestamp line) as [t|]; [|discriminate Hp].
  injection Hp as <-. cbn [tagIndex colonIndex].
  set (k := strings_IndexRune _ _) in *.
  unfold substr in *. rewrite take_take in Hno.
  replace (Z.to_nat (k + a5 - a5)) with (Z.to_nat k `min` Z.to_nat (len line - a5))%nat
    by lia.
  exact Hno.
Qed.

(** X15: the level letter decides the colours of a printed record: the
    level and the message are in the colour of the level (V white, D blue,
    I green, W yellow, E red, F magenta), the tag is always black on cyan,
    and the metadata, the tag padding and the separators are plain. *)
Theorem record_colours (line lastTag : str) (lastTime : Time) (lastOther : str)
    (opts : LogcatOptions) (p : LogLine) :
  parseLine line = Ok (Some p) ->
  colonIndex p + 2 <= len line ->
  exists (metadata : str) (c : colorFn) (st : str * Time * str),
    printColoredLog line lastTag lastTime lastOther opts
    = Ok ([Plain metadata; Colored c (level p); Plain (lit " ");
           Colored [FgBlack; BgCyan] (tag p); Plain (tagSpace p); Plain (lit " : ");
           Colored c (substr line (colonIndex p + 2) (len line)); Plain newline],
          st)
    /\ (level p, c) ∈ levelColours.
Proof.
  intros Hp Hcolon. rewrite printColoredLog_parseLine, Hp. cbn [mbind result_bind].
  rewrite (render_parsed _ _ _ _ _ _ Hp).
  apply parseLine_Some in Hp as (Hl & Hc & _ & Hcol & _).
  unfold slice_from. rewrite slice_Ok by lia. cbn [mbind result_bind].
  eexists _, _, _. split; [reflexivity|]. by apply levelColours_lookup.
Qed.

Lemma record_colours_witness :
  exists (metadata : str) (st : str * Time * str),
    printColoredLog (lit "04-19 19:34:18.813  5587  5708 E artd    : failed")
      [] zeroTime [] defaultOptions
    = Ok ([Plain metadata; Colored [FgRed] (lit "E"); Plain (lit " ");
           Colored [FgBlack; BgCyan] (lit "artd"); Plain (lit "    ");
           Plain (lit " : "); Colored [FgRed] (lit "failed"); Plain newline],
          st).
Proof.
  let p := eval vm_compute in
    (parseLine (lit "04-19 19:34:18.813  5587  5708 E artd    : failed")) in
  lazymatch p with
  | Ok (Some ?p) =>
    destruct (record_colours (lit "04-19 19:34:18.813  5587  5708 E artd    : failed")
                [] zeroTime [] defaultOptions p) as (metadata & c & st & Hout & Hc)
  end.
  - vm_compute. reflexivity.
  - by vm_compute.
  - exists metadata, st. rewrite Hout.
    assert (Hred : c = [FgRed]).
    { pose proof Hout as Hout'. vm_compute in Hout'. by injection Hout' as _ <- _. }
    by rewrite Hred.
Defined.

(** X16: with the colours left out, a record that is not deduplicated is
    printed as the line up to and including its level character, one space,
    the text from the tag offset to the colon, [" : "], and the line from
    the second byte after the colon on: whatever stands between the level
    character and the tag, and the byte right after the colon, are not
    printed.  (The tag text starts with an ASCII byte that is not white
    space, and a byte follows the colon.) *)
Theorem record_plain_text (line lastTag : str) (lastTime : Time) (lastOther : str)
    (opts : LogcatOptions) (p : LogLine) (c : ascii) :
  parseLine line = Ok (Some p) ->
  colonIndex p + 2 <= len line ->
  lastTag <> tag p ->
  byte_at line (tagIndex p) = Some c ->
  byteZ c < utf8.runeSelf ->
  asciiSpace c = false ->
  exists out st,
    printColoredLog line lastTag lastTime lastOther opts = Ok (out, st)
    /\ text out
       = substr line 0 (levelIndex p + 1) ++ lit " "
         ++ substr line (tagIndex p) (colonIndex p) ++ lit " : "
         ++ substr line (colonIndex p + 2) (len line) ++ newline.
Proof.
  intros Hp Hcolon Htag Hc Hascii Hsp.
  rewrite printColoredLog_parseLine, Hp. cbn [mbind result_bind].
  rewrite (render_parsed _ _ _ _ _ _ Hp).
  pose proof (tag_round_trip _ _ _ Hp Hc Hascii Hsp) as Hround.
  apply parseLine_Some in Hp as (Hl & Hcol & Hlevel & _).
  unfold slice_from. rewrite slice_Ok by lia. cbn [mbind result_bind].
  unfold deduplicated. rewrite (bool_decide_eq_false_2 _ Htag). cbn [andb].
  eexists _, _. split; [reflexivity|].
  unfold text. cbn [map concat text_of_piece]. rewrite app_nil_r, Hlevel.
  rewrite <- Hround, <- (substr_app line 0 (levelIndex p) (levelIndex p + 1)) by lia.
  by rewrite <- !app_assoc.
Qed.

Lemma record_plain_text_witness :
  exists out st,
    printColoredLog (lit "04-19 19:34:18.813  5587  5708 Info   artd  :message")
      [] zeroTime [] defaultOptions = Ok (out, st)
    /\ text out = lit "04-19 19:34:18.813  5587  5708 I artd   : essage" ++ newline.
Proof.
  let p := eval vm_compute in
    (parseLine (lit "04-19 19:34:18.813  5587  5708 Info   artd  :message")) in
  lazymatch p with
  | Ok (Some ?p) =>
    destruct (record_plain_text
                (lit "04-19 19:34:18.813  5587  5708 Info   artd  :message")
                [] zeroTime [] defaultOptions p "a")
      as (out & st & Hout & Htext)
  end.
  - vm_compute. reflexivity.
  - by vm_compute.
  - discriminate.
  - reflexivity.
  - by vm_compute.
  - reflexivity.
  - exists out, st. split; [exact Hout|]. rewrite Htext. reflexivity.
Defined.

(** X17: the other-text is state that is carried along and never read:
    with two different values of it, the same line prints the same and
    returns the same tag and time. *)
Theorem lastOther_is_never_read (line lastTag : str) (lastTime : Time)
    (lastOther1 lastOther2 : str) (opts : LogcatOptions) :
  withoutOther (printColoredLog line lastTag lastTime lastOther1 opts)
  = withoutOther (printColoredLog line lastTag lastTime lastOther2 opts).
Proof.
  rewrite !printColoredLog_parseLine.
  destruct (parseLine line) as [[p|]|q] eqn:Hp; cbn [mbind result_bind]; try reflexivity.
  rewrite !(render_parsed _ _ _ _ _ _ Hp).
  destruct (slice_from line (colonIndex p + 2)); cbn [mbind result_bind]; reflexivity.
Qed.

(** X18: the tag and its padding never contain a colon, and together they
    are exactly as long as the text between the tag offset and the colon,
    so the colon of every printed record of a block stays in its column. *)
Theorem tag_column (line : str) (p : LogLine) :
  parseLine line = Ok (Some p) ->
  (":"%char ∉ tag p)
  /\ (":"%char ∉ tagSpace p)
  /\ len (tag p) + len (tagSpace p) = colonIndex p - tagIndex p.
Proof.
  intros Hp. pose proof (parseLine_first_colon _ _ Hp) as Hno.
  apply parseLine_Some in Hp as (Hl & Hcol & _ & _ & _ & Htag & Hspace & _).
  assert (Hlen : len (tag p) <= colonIndex p - tagIndex p).
  { rewrite Htag. etrans; [apply len_TrimSpace|]. rewrite len_substr by lia. lia. }
  pose proof (len_nonneg (tag p)) as Hpos.
  split; [|split].
  - intros Hin. apply Hno. rewrite Htag in Hin. by apply elem_of_TrimSpace in Hin.
  - intros Hin. apply Hno. rewrite Hspace in Hin.
    rewrite <- (substr_app line (tagIndex p) (tagIndex p + len (tag p)) (colonIndex p))
      by lia.
    apply elem_of_app. by right.
  - rewrite Hspace, len_substr by lia. lia.
Qed.

Lemma tag_column_witness :
  (":"%char ∉ lit "artd") /\ (":"%char ∉ lit "d  ")
  /\ len (lit "artd") + len (lit "d  ") = 40 - 33.
Proof.
  let p := eval vm_compute in (parseLine tabTagLine) in
  lazymatch p with
  | Ok (Some ?p) => apply (tag_column tabTagLine p)
  end.
  vm_compute. reflexivity.
Defined.

(** ** One line in, one line out *)

Lemma byteZ_digitChar (d : Z) : 0 <= d < 10 -> byteZ (digitChar d) = d + 48.
Proof.
  intros Hd. unfold byteZ, digitChar. rewrite N_ascii_embedding by lia. lia.
Qed.

Lemma digitChar_no_line_feed (v : Z) : digitChar (v mod 10) <> "010"%char.
Proof.
  intros H. pose proof (Z.mod_pos_bound v 10 ltac:(lia)) as Hb.
  pose proof (byteZ_digitChar _ Hb) as Hd. rewrite H in Hd.
  change (byteZ "010") with 10 in Hd. lia.
Qed.

Lemma fmtInt_loop_no_line_feed (fuel : nat) :
  forall (buf : str) (v : Z),
    Forall (fun c => c <> "010"%char) buf ->
    Forall (fun c => c <> "010"%char) (fmtInt_loop fuel buf v).
Proof.
  induction fuel as [|fuel IH]; intros buf v Hbuf; [done|].
  cbn [fmtInt_loop]. destruct (v >? 0); [|done].
  apply IH. constructor; [apply digitChar_no_line_feed|done].
Qed.

Lemma fmtInt_no_line_feed (buf : str) (v : Z) :
  Forall (fun c => c <> "010"%char) buf ->
  Forall (fun c => c <> "010"%char) (fmtInt buf v).
Proof.
  intros Hbuf. unfold fmtInt. destruct (v =? 0).
  - by constructor.
  - by apply fmtInt_loop_no_line_feed.
Qed.

Lemma fmtFrac_loop_no_line_feed (prec : nat) :
  forall (buf : str) (v : Z) (print : bool),
    Forall (fun c => c <> "010"%char) buf ->
    Forall (fun c => c <> "010"%char) (fmtFrac_loop prec buf v print).1.1.
Proof.
  induction prec as [|prec IH]; intros buf v print Hbuf; [done|].
  cbn [fmtFrac_loop]. apply IH.
  destruct (print || _); [|done].
  constructor; [apply digitChar_no_line_feed|done].
Qed.

Lemma fmtFrac_no_line_feed (buf : str) (v : Z) (prec : nat) :
  Forall (fun c => c <> "010"%char) buf ->
  Forall (fun c => c <> "010"%char) (fmtFrac buf v prec).1.
Proof.
  intros Hbuf. unfold fmtFrac.
  pose proof (fmtFrac_loop_no_line_feed prec buf v false Hbuf) as H.
  destruct (fmtFrac_loop prec buf v false) as [[buf' v'] print]. cbn [fst] in *.
  destruct print; [by constructor|done].
Qed.

(** A duration is written without a line feed. *)
Lemma Duration_String_no_line_feed (d : Duration) :
  Forall (fun c => c <> "010"%char) (Duration_String d).
Proof.
  assert (Hlit : forall s : string,
             Forall (fun c => c <> "010"%char) (lit s) ->
             forall v prec,
               Forall (fun c => c <> "010"%char) (fmtFrac (lit s) v prec).1).
  { intros s Hs v prec. by apply fmtFrac_no_line_feed. }
  unfold Duration_String. cbv zeta.
  assert (Hbody : Forall (fun c => c <> "010"%char)
            (if Z.abs d <? Second then
               if Z.abs d =? 0 then lit "0s"
               else if Z.abs d <? Microsecond then
                 let '(buf, u) := fmtFrac (lit "ns") (Z.abs d) 0 in fmtInt buf u
               else if Z.abs d <? Millisecond then
                 let '(buf, u) := fmtFrac (lit "µs") (Z.abs d) 3 in fmtInt buf u
               else
                 let '(buf, u) := fmtFrac (lit "ms") (Z.abs d) 6 in fmtInt buf u
             else
               let '(buf, u) := fmtFrac (lit "s") (Z.abs d) 9 in
               let buf := fmtInt buf (u mod 60) in
               let u := u / 60 in
               if u >? 0 then
                 let buf := fmtInt ("m"%char :: buf) (u mod 60) in
                 let u := u / 60 in
                 if u >? 0 then fmtInt ("h"%char :: buf) u else buf
               else buf)).
  { destruct (Z.abs d <? Second).
    - destruct (Z.abs d =? 0); [by repeat constructor|].
      destruct (Z.abs d <? Microsecond); [|destruct (Z.abs d <? Millisecond)].
      + pose proof (Hlit "ns"%string ltac:(by repeat constructor) (Z.abs d) 0%nat) as H.
        destruct (fmtFrac (lit "ns") (Z.abs d) 0) as [buf u].
        by apply fmtInt_no_line_feed.
      + pose proof (Hlit "µs"%string ltac:(by repeat constructor) (Z.abs d) 3%nat) as H.
        destruct (fmtFrac (lit "µs") (Z.abs d) 3) as [buf u].
        by apply fmtInt_no_line_feed.
      + pose proof (Hlit "ms"%string ltac:(by repeat constructor) (Z.abs d) 6%nat) as H.
        destruct (fmtFrac (lit "ms") (Z.abs d) 6) as [buf u].
        by apply fmtInt_no_line_feed.
    - pose proof (Hlit "s"%string ltac:(by repeat constructor) (Z.abs d) 9%nat) as H.
      destruct (fmtFrac (lit "s") (Z.abs d) 9) as [buf u]. cbn [fst] in H. cbv zeta.
      destruct (u / 60 >? 0); [|by apply fmtInt_no_line_feed].
      destruct (u / 60 / 60 >? 0).
      + apply fmtInt_no_line_feed. constructor; [done|].
        apply fmtInt_no_line_feed. constructor; [done|].
        by apply fmtInt_no_line_feed.
      + apply fmtInt_no_line_feed. constructor; [done|].
        by apply fmtInt_no_line_feed. }
  destruct (d <? 0); [by constructor|done].
Qed.

Lemma Sprintf_star_minus_v_no_line_feed (wid : Z) (s : str) :
  Forall (fun c => c <> "010"%char) s ->
  Forall (fun c => c <> "010"%char) (Sprintf_star_minus_v wid s).
Proof.
  intros Hs. unfold Sprintf_star_minus_v.
  destruct (_ || _).
  - apply Forall_app. split; [by repeat constructor|done].
  - cbv zeta. destruct (_ =? 0); [done|].
    apply Forall_app. split; [done|]. apply Forall_replicate. done.
Qed.

Lemma substr_no_line_feed (s : str) (a b : Z) :
  Forall (fun c => c <> "010"%char) s ->
  Forall (fun c => c <> "010"%char) (substr s a b).
Proof.
  rewrite !Forall_forall. intros Hs x Hx. by apply Hs, (elem_of_substr s a b).
Qed.

(** X19: for a line without a line feed, as the scanner delivers them,
    whatever [printColoredLog] prints is one line: text without a line feed
    followed by one line feed. *)
Theorem one_line_out (line lastTag : str) (lastTime : Time) (lastOther : str)
    (opts : LogcatOptions) (out : list piece) (st : str * Time * str) :
  Forall (fun c => c <> "010"%char) line ->
  printColoredLog line lastTag lastTime lastOther opts = Ok (out, st) ->
  exists body,
    text out = body ++ newline /\ Forall (fun c => c <> "010"%char) body.
Proof.
  intros Hline. rewrite printColoredLog_parseLine.
  destruct (parseLine line) as [[p|]|q] eqn:Hp; cbn [mbind result_bind]; [| |done].
  - rewrite (render_parsed _ _ _ _ _ _ Hp).
    pose proof (parseLine_Some _ _ Hp) as (_ & _ & Hlevel & _ & _ & Htag & Hspace & _).
    destruct (slice_from line (colonIndex p + 2)) as [message|] eqn:Hm; [|done].
    cbn [mbind result_bind]. intros [= <- <-].
    assert (Hmsg : Forall (fun c => c <> "010"%char) message).
    { unfold slice_from, slice in Hm. destruct (_ && _); [|done].
      injection Hm as <-. by apply substr_no_line_feed. }
    eexists. split.
    + unfold text. cbn [map concat text_of_piece]. rewrite app_nil_r.
      rewrite !app_assoc. reflexivity.
    + repeat (apply Forall_app; split); try by repeat constructor.
      * destruct (deduplicated _ _ _ _).
        -- apply Sprintf_star_minus_v_no_line_feed.
           constructor; [done|apply Duration_String_no_line_feed].
        -- by apply substr_no_line_feed.
      * rewrite Hlevel. by apply substr_no_line_feed.
      * rewrite Htag. rewrite Forall_forall. intros x Hx%elem_of_TrimSpace.
        revert x Hx. apply Forall_forall. by apply substr_no_line_feed.
      * rewrite Hspace. by apply substr_no_line_feed.
  - intros [= <- <-]. exists line. split; [apply text_Println|done].
Qed.

Lemma one_line_out_witness :
  exists body,
    text [Plain (lit "+1ms                           "); Colored [FgGreen] (lit "I");
          Plain (lit " "); Colored [FgBlack; BgCyan] (lit "artd"); Plain (lit "    ");
          Plain (lit " : "); Colored [FgGreen] (lit "GetBestInfo no usable artifacts");
          Plain newline]
    = body ++ newline
    /\ Forall (fun c => c <> "010"%char) body.
Proof.
  apply (one_line_out exampleLineLater (lit "artd") exampleTime exampleOther
           defaultOptions _ (lit "artd", exampleTime, exampleOther)).
  - apply (bool_decide_unpack _). vm_compute. exact I.
  - vm_compute. reflexivity.
Defined.

(** ** Timestamps *)

Lemma isDigit_digitAt (s : str) (i : nat) :
  isDigit s i = true -> 0 <= digitAt s i <= 9.
Proof.
  unfold isDigit, digitAt. destruct (s !! i) as [c|]; [|done].
  intros H. apply andb_prop in H as [H1 H2].
  apply Z.leb_le in H1, H2. lia.
Qed.

Lemma getnum_range (s rest : str) (fixed : bool) (n : Z) :
  getnum s fixed = Some (n, rest) -> 0 <= n <= 99.
Proof.
  unfold getnum. destruct (isDigit s 0) eqn:H0; cbn [negb]; [|done].
  pose proof (isDigit_digitAt _ _ H0).
  destruct (isDigit s 1) eqn:H1; cbn [negb].
  - pose proof (isDigit_digitAt _ _ H1). intros [= <- _]. lia.
  - destruct fixed; [done|]. intros [= <- _]. lia.
Qed.

Lemma leadingInt_loop_bound (s : str) :
  forall (x q : Z) (rest : str),
    0 <= x ->
    leadingInt_loop x s = Some (q, rest) ->
    0 <= q < (x + 1) * 10 ^ len s.
Proof.
  induction s as [|c s IH]; intros x q rest Hx H; cbn [leadingInt_loop] in H.
  - injection H as <- _. change (len (@nil ascii)) with 0. lia.
  - pose proof (len_nonneg s) as Hs. rewrite len_cons, Z.pow_add_r by lia.
    assert (Hp : 0 < 10 ^ len s) by (apply Z.pow_pos_nonneg; lia).
    destruct (_ || _) eqn:Hdigit.
    + injection H as <- _. nia.
    + apply orb_false_elim in Hdigit as [Hlo Hhi].
      apply Z.ltb_ge in Hlo. rewrite Z.gtb_ltb in Hhi. apply Z.ltb_ge in Hhi.
      destruct (x >? 2 ^ 63 / 10); [done|].
      cbv zeta in H. destruct (_ >? 2 ^ 63); [done|].
      apply IH in H; [|lia]. nia.
Qed.

Lemma wrap64_small (z : Z) : - 2 ^ 63 <= z < 2 ^ 63 -> wrap64 z = z.
Proof.
  intros H. unfold wrap64. rewrite Z.mod_small by lia. lia.
Qed.

Lemma atoi_three (s : str) (x : Z) :
  len s <= 3 -> atoi s = Some x -> -999 <= x <= 999.
Proof.
  intros Hlen. unfold atoi.
  assert (Hgen : forall (neg : bool) (t : str),
             len t <= 3 ->
             match leadingInt_loop 0 t with
             | Some (q, []) => Some (if neg then wrap64 (- wrap64 q) else wrap64 q)
             | _ => None
             end = Some x ->
             -999 <= x <= 999).
  { intros neg t Ht H.
    destruct (leadingInt_loop 0 t) as [[q [|? ?]]|] eqn:Hq; try done.
    apply leadingInt_loop_bound in Hq; [|lia].
    assert (10 ^ len t <= 10 ^ 3) by (apply Z.pow_le_mono_r; lia).
    injection H as <-. rewrite (wrap64_small q) by lia.
    destruct neg; [rewrite wrap64_small; lia|lia]. }
  destruct s as [|c rest]; [by apply (Hgen false [])|].
  rewrite len_cons in Hlen.
  destruct (Ascii.eqb c "-"); [apply (Hgen true rest); lia|].
  destruct (Ascii.eqb c "+"); [apply (Hgen false rest); lia|].
  apply (Hgen false (c :: rest)). rewrite len_cons. lia.
Qed.

Lemma parseNanoseconds_range (value : str) (ns : Z) :
  parseNanoseconds value 4 = Some ns ->
  0 <= ns <= 999000000 /\ ns mod 1000000 = 0.
Proof.
  unfold parseNanoseconds. destruct value as [|c value]; [done|].
  destruct (commaOrPeriod c); cbn [negb]; [|done].
  destruct (atoi _) as [x|] eqn:Hx; [|done].
  apply atoi_three in Hx.
  - destruct (x <? 0) eqn:Hneg; [done|]. apply Z.ltb_ge in Hneg.
    intros [= <-]. change (10 ^ (10 - 4)) with 1000000.
    split; [lia|]. apply Z_mod_mult.
  - unfold substr, len. rewrite length_take. lia.
Qed.

Lemma Date0_range (month day hour min sec_ nsec_ : Z) :
  1 <= month <= 12 -> 1 <= day <= daysIn month 0 ->
  0 <= hour < 24 -> 0 <= min < 60 -> 0 <= sec_ < 60 ->
  -366 * 86400 <= sec (Date0 month day hour min sec_ nsec_) < 0.
Proof.
  intros Hm Hd Hh Hmin Hs. unfold Date0. cbn [sec].
  assert (Hcases : month = 1 \/ month = 2 \/ month = 3 \/ month = 4 \/ month = 5
                   \/ month = 6 \/ month = 7 \/ month = 8 \/ month = 9 \/ month = 10
                   \/ month = 11 \/ month = 12) by lia.
  repeat (destruct Hcases as [-> | Hcases]); [..|subst month];
    match type of Hd with
    | context [daysIn ?m ?y] =>
      let v := eval vm_compute in (daysIn m y) in change (daysIn m y) with v in Hd
    end;
    match goal with
    | |- context [daysBefore ?m] =>
      let v := eval vm_compute in (daysBefore m) in change (daysBefore m) with v
    end;
    match goal with
    | |- context [if ?b then _ else _] =>
      let v := eval vm_compute in b in change b with v
    end; cbv iota; lia.
Qed.

Lemma time_Parse_range (value : str) (t : Time) :
  time_Parse value = Some t ->
  -366 * 86400 <= sec t < 0
  /\ 0 <= nsec t <= 999000000
  /\ nsec t mod 1000000 = 0.
Proof.
  unfold time_Parse. intros H.
  repeat match type of H with
  | mbind _ ?o = Some _ =>
    let E := fresh "E" in
    destruct o as [[? ?]|] eqn:E; cbn [mbind option_bind] in H; [|discriminate H]
  | mbind _ ?o = Some _ =>
    let E := fresh "E" in
    destruct o as [?|] eqn:E; cbn [mbind option_bind] in H; [|discriminate H]
  | (if ?b then _ else _) = Some _ =>
    let E := fresh "E" in
    destruct b eqn:E; [discriminate H|]
  | (let value := _ in _) = Some _ => cbv zeta in H
  end.
  injection H as <-.
  repeat match goal with
  | E : getnum _ _ = Some _ |- _ => apply getnum_range in E
  | E : (_ || _) = false |- _ => apply orb_false_elim in E as [? ?]
  | E : (_ <? _) = false |- _ => apply Z.ltb_ge in E
  | E : (_ <=? _) = false |- _ => apply Z.leb_gt in E
  end.
  match goal with
  | E : parseNanoseconds _ 4 = Some _ |- _ =>
    apply parseNanoseconds_range in E as [? ?]
  end.
  split; [apply Date0_range; lia|]. cbn [nsec Date0]. split; [lia|done].
Qed.

(** X20: the layout has no year, so every timestamp that parses is an
    instant of year 0: at most 366 days before the zero [Time] and never at
    or after it, with whole milliseconds. *)
Theorem parseTimestamp_year_zero (line : str) (t : Time) :
  parseTimestamp line = Some t ->
  -366 * 86400 <= sec t < 0
  /\ 0 <= nsec t <= 999000000
  /\ nsec t mod 1000000 = 0
  /\ Time_Before t zeroTime = true.
Proof.
  unfold parseTimestamp. destruct (_ <? 2); [done|].
  destruct (strings_Fields line) as [|p0 [|p1 rest]]; [done|done|].
  intros H. apply time_Parse_range in H as (Hs & Hn & Hm).
  repeat split; try done; try lia.
  unfold Time_Before, zeroTime. cbn [sec nsec].
  rewrite (proj2 (Z.ltb_lt _ _)) by lia. done.
Qed.

Lemma parseTimestamp_year_zero_witness :
  -366 * 86400 <= -22134342 < 0
  /\ 0 <= 813000000 <= 999000000
  /\ 813000000 mod 1000000 = 0
  /\ Time_Before exampleTime zeroTime = true.
Proof.
  apply (parseTimestamp_year_zero exampleLine exampleTime). reflexivity.
Defined.

Lemma Time_Sub_exact (t u : Time) :
  - 2 ^ 30 <= sec t <= 2 ^ 30 -> - 2 ^ 30 <= sec u <= 2 ^ 30 ->
  0 <= nsec t < 1000000000 -> 0 <= nsec u < 1000000000 ->
  Time_Sub t u = (sec t - sec u) * 1000000000 + (nsec t - nsec u).
Proof.
  intros Hst Hsu Hnt Hnu. unfold Time_Sub.
  change Second with 1000000000.
  assert (H230 : 2 ^ 30 = 1073741824) by reflexivity.
  assert (H263 : 2 ^ 63 = 9223372036854775808) by reflexivity.
  rewrite (wrap64_small (sec t - sec u)) by lia.
  rewrite (wrap64_small ((sec t - sec u) * 1000000000)) by lia.
  rewrite (wrap64_small ((sec t - sec u) * 1000000000 + (nsec t - nsec u))) by lia.
  set (d := (sec t - sec u) * 1000000000 + (nsec t - nsec u)).
  assert (Hadd : Time_Equal (Time_Add u d) t = true); [|by rewrite Hadd].
  unfold Time_Add, Time_Equal.
  pose proof (Z.quot_rem' d 1000000000) as Hqr.
  assert (Hrem : -1000000000 < Z.rem d 1000000000 < 1000000000).
  { pose proof (Z.rem_bound_abs d 1000000000 ltac:(lia)). lia. }
  set (q := Z.quot d 1000000000) in *. set (r := Z.rem d 1000000000) in *.
  assert (Hd : d = (sec t - sec u) * 1000000000 + (nsec t - nsec u)) by done.
  clearbody d q r.
  destruct (Z.geb_spec (nsec u + r) 1000000000) as [Hge|Hlt].
  - assert (Hq : q + 1 = sec t - sec u) by lia.
    assert (Hn : nsec u + r - 1000000000 = nsec t) by lia.
    rewrite (wrap64_small (sec u + (q + 1))) by lia. cbn [sec nsec].
    destruct (Z.gtb_spec (sec u + (q + 1)) (sec u)), (Z.gtb_spec (q + 1) 0);
      cbn [Bool.eqb]; try lia;
      rewrite ?(proj2 (Z.eqb_eq _ _)) by lia; done.
  - destruct (Z.ltb_spec (nsec u + r) 0) as [Hneg|Hpos].
    + assert (Hq : q - 1 = sec t - sec u) by lia.
      assert (Hn : nsec u + r + 1000000000 = nsec t) by lia.
      rewrite (wrap64_small (sec u + (q - 1))) by lia. cbn [sec nsec].
      destruct (Z.gtb_spec (sec u + (q - 1)) (sec u)), (Z.gtb_spec (q - 1) 0);
        cbn [Bool.eqb]; try lia;
        rewrite ?(proj2 (Z.eqb_eq _ _)) by lia; done.
    + assert (Hq : q = sec t - sec u) by lia.
      assert (Hn : nsec u + r = nsec t) by lia.
      rewrite (wrap64_small (sec u + q)) by lia. cbn [sec nsec].
      destruct (Z.gtb_spec (sec u + q) (sec u)), (Z.gtb_spec q 0);
        cbn [Bool.eqb]; try lia;
        rewrite ?(proj2 (Z.eqb_eq _ _)) by lia; done.
Qed.

(** X21: the delta of a line that parses is exact whenever the last time is
    the zero [Time] or a timestamp parsed earlier: [Sub] never saturates
    there, the delta is a whole number of milliseconds, it is negative
    against the zero [Time], and below 366 days in size between two parsed
    timestamps. *)
Theorem delta_is_exact (line earlier : str) (t u : Time) :
  parseTimestamp line = Some t ->
  (Time_Sub t zeroTime = sec t * 1000000000 + nsec t
   /\ Time_Sub t zeroTime < 0
   /\ Time_Sub t zeroTime mod 1000000 = 0)
  /\ (parseTimestamp earlier = Some u ->
      Time_Sub t u = (sec t - sec u) * 1000000000 + (nsec t - nsec u)
      /\ - (366 * 86400 * 1000000000) < Time_Sub t u < 366 * 86400 * 1000000000
      /\ Time_Sub t u mod 1000000 = 0).
Proof.
  intros Ht. apply parseTimestamp_year_zero in Ht as (Hs & Hn & Hm & _).
  assert (H230 : 2 ^ 30 = 1073741824) by reflexivity.
  assert (Hmod : forall a b c, b mod 1000000 = 0 -> c mod 1000000 = 0 ->
                               (a * 1000000000 + (b - c)) mod 1000000 = 0).
  { intros a b c Hb Hc.
    apply Z.mod_divide in Hb as [kb ->]; [|lia].
    apply Z.mod_divide in Hc as [kc ->]; [|lia].
    replace (a * 1000000000 + (kb * 1000000 - kc * 1000000))
      with ((a * 1000 + kb - kc) * 1000000) by lia.
    apply Z_mod_mult. }
  split.
  - rewrite (Time_Sub_exact t zeroTime) by (cbn [sec nsec zeroTime]; lia).
    cbn [sec nsec zeroTime]. rewrite !Z.sub_0_r.
    split; [done|]. split; [lia|].
    specialize (Hmod (sec t) (nsec t) 0 Hm eq_refl). by rewrite Z.sub_0_r in Hmod.
  - intros Hu. apply parseTimestamp_year_zero in Hu as (Hsu & Hnu & Hmu & _).
    rewrite (Time_Sub_exact t u) by lia.
    split; [done|]. split; [lia|]. by apply Hmod.
Qed.

Lemma delta_is_exact_witness :
  parseTimestamp exampleLineLater = Some (mkTime (-22134342) 814000000)
  /\ parseTimestamp exampleLine = Some exampleTime
  /\ Time_Sub (mkTime (-22134342) 814000000) zeroTime < 0
  /\ Time_Sub (mkTime (-22134342) 814000000) exampleTime
     = (-22134342 - sec exampleTime) * 1000000000
       + (814000000 - nsec exampleTime).
Proof.
  split; [reflexivity|]. split; [reflexivity|].
  destruct (delta_is_exact exampleLineLater exampleLine
              (mkTime (-22134342) 814000000) exampleTime eq_refl)
    as [(_ & Hneg & _) Hsub].
  split; [exact Hneg|].
  destruct (Hsub eq_refl) as (Heq & _). exact Heq.
Defined.
